(** * Infinite Social Feed: ranking engine and feed routes

    A shallow embedding of the ranking engine ([RankingEngine] in
    src/utils/ranking.js), of the [Post] and [Like] models
    (src/models/Post.js, src/models/Like.js) and of the feed, like and
    unlike handlers of src/routes/posts.js.

    Modelling conventions.
    - Counters, timestamps (milliseconds since the epoch), page numbers and
      page sizes are integers ([Z]).  JavaScript stores them as doubles;
      the model is exact as long as they stay below 2^53.
    - Scores are real numbers ([R]): the arithmetic of the scorer is
      idealised, rounding is not modelled.  The model agrees with
      JavaScript wherever no division by zero and no logarithm of a
      non-positive number is evaluated; the theorems say where that is.
    - A MongoDB collection is the list of its documents.  Queries are
      functions on that list; a handler maps a store to a store and a
      response.  Promises are run to completion one after the other, and a
      failing database call (the [catch] branches, status 500) is not
      modelled. *)

From Stdlib Require Import ZArith QArith List Bool String Ascii.
From Stdlib Require Import Reals Lra Lia Psatz Permutation Sorted.
Import ListNotations.

(** ** Data model *)

Definition ObjectId := nat.

Module Post.

(** The fields of [postSchema] that the ranking engine and the like
    handlers read or write.  [createdAt] comes from [timestamps: true]. *)
Record t : Type := mk {
  _id : ObjectId;
  userId : ObjectId;
  tags : list string;
  likes : Z;
  comments : Z;
  views : Z;
  shares : Z;
  isActive : bool;
  createdAt : Z;
  engagement : Q
}.

(** [postSchema.virtual('hoursSinceCreation')]:
    [Math.floor((now - created) / (1000 * 60 * 60))].  [Z.div] rounds
    towards minus infinity, as [Math.floor] does. *)
Definition hoursSinceCreation (now : Z) (p : t) : Z :=
  ((now - createdAt p) / (1000 * 60 * 60))%Z.

(** [updateEngagement]:
    [(likes + comments * 2 + shares * 3) / (views + 1)]. *)
Definition updateEngagement (p : t) : t :=
  mk (_id p) (userId p) (tags p) (likes p) (comments p) (views p)
     (shares p) (isActive p) (createdAt p)
     (inject_Z (likes p + comments p * 2 + shares p * 3)
      / inject_Z (views p + 1))%Q.

Definition set_likes (n : Z) (p : t) : t :=
  mk (_id p) (userId p) (tags p) n (comments p) (views p)
     (shares p) (isActive p) (createdAt p) (engagement p).

(** The in-memory part of [incrementLikes]: [this.likes += 1;
    this.updateEngagement()], then the pre-save hook, which calls
    [updateEngagement] once more. *)
Definition incrementLikes (p : t) : t :=
  updateEngagement (updateEngagement (set_likes (likes p + 1) p)).

(** The in-memory part of [decrementLikes]: the counter moves only when
    it is positive; the pre-save hook runs in both cases. *)
Definition decrementLikes (p : t) : t :=
  if (likes p >? 0)%Z
  then updateEngagement (updateEngagement (set_likes (likes p - 1) p))
  else updateEngagement p.

Definition set_views (n : Z) (p : t) : t :=
  mk (_id p) (userId p) (tags p) (likes p) (comments p) n
     (shares p) (isActive p) (createdAt p) (engagement p).

Definition set_comments (n : Z) (p : t) : t :=
  mk (_id p) (userId p) (tags p) (likes p) n (views p)
     (shares p) (isActive p) (createdAt p) (engagement p).

Definition set_shares (n : Z) (p : t) : t :=
  mk (_id p) (userId p) (tags p) (likes p) (comments p) (views p)
     n (isActive p) (createdAt p) (engagement p).

(** The in-memory part of [incrementViews], [incrementComments],
    [decrementComments] and [incrementShares], each followed by the
    pre-save hook. *)
Definition incrementViews (p : t) : t :=
  updateEngagement (updateEngagement (set_views (views p + 1) p)).

Definition incrementComments (p : t) : t :=
  updateEngagement (updateEngagement (set_comments (comments p + 1) p)).

Definition decrementComments (p : t) : t :=
  if (comments p >? 0)%Z
  then updateEngagement (updateEngagement (set_comments (comments p - 1) p))
  else updateEngagement p.

Definition incrementShares (p : t) : t :=
  updateEngagement (updateEngagement (set_shares (shares p + 1) p)).

(** [postSchema.virtual('ageInDays')]. *)
Definition ageInDays (now : Z) (p : t) : Z :=
  ((now - createdAt p) / (1000 * 60 * 60 * 24))%Z.

End Post.

Module Like.

Record t : Type := mk {
  userId : ObjectId;
  postId : ObjectId
}.

End Like.

(** ** Scorer *)

Open Scope R_scope.

Definition tagWeight : R := 0.4.
Definition recencyWeight : R := 0.3.
Definition popularityWeight : R := 0.3.

(** [Array.prototype.includes] on an array of strings. *)
Definition includes (l : list string) (s : string) : bool :=
  existsb (String.eqb s) l.

Section Scorer.

(** [String.prototype.toLowerCase] is a builtin; the scorer is
    verified for any function in its place. *)
Variable toLowerCase : string -> string.

(** A tag list as the data model describes it: case-normalized and
    deduplicated. *)
Definition normalized (l : list string) : Prop :=
  NoDup l /\ Forall (fun t => toLowerCase t = t) l.

Definition matchingTags (userLikedTags postTags : list string)
  : list string :=
  filter (fun tag => includes userLikedTags (toLowerCase tag)) postTags.

Definition calculateTagScore (userLikedTags postTags : list string) : R :=
  if (List.length userLikedTags =? 0)%nat then 0
  else if (List.length postTags =? 0)%nat then 0
  else (INR (List.length (matchingTags userLikedTags postTags))
        / INR (List.length userLikedTags)) * tagWeight.

Definition calculateRecencyScore (hoursSinceCreation : Z) : R :=
  (1 / (IZR hoursSinceCreation + 1)) * recencyWeight.

Definition calculatePopularityScore (likes maxLikes : Z) : R :=
  if (maxLikes =? 0)%Z then 0
  else (ln (IZR likes + 1) / ln (IZR maxLikes + 1)) * popularityWeight.

(** [post.hoursSinceCreation] reads the clock; the clock is the
    parameter [now]. *)
Definition calculateRankingScore (now : Z) (post : Post.t)
    (userLikedTags : list string) (maxLikes : Z) : R :=
  let tagScore := calculateTagScore userLikedTags (Post.tags post) in
  let recencyScore :=
    calculateRecencyScore (Post.hoursSinceCreation now post) in
  let popularityScore :=
    calculatePopularityScore (Post.likes post) maxLikes in
  tagScore + recencyScore + popularityScore.

End Scorer.

(** ** Arrays *)

Section ArraySort.

Variable A : Type.

(** [after a b] stands for [compareFn(a, b) > 0]: [a] is to come after
    [b]. *)
Variable after : A -> A -> bool.

Fixpoint insert_sorted (x : A) (l : list A) : list A :=
  match l with
  | [] => [x]
  | y :: l' => if after x y then y :: insert_sorted x l' else x :: l
  end.

(** [Array.prototype.sort(compareFn)].  The sort is stable (ECMAScript
    2019), so for a consistent comparator its result is determined: the
    elements in comparator order, equal elements in their input order.
    Insertion from the right computes exactly that arrangement. *)
Definition array_sort (l : list A) : list A :=
  fold_right insert_sorted [] l.

(** The index clamping of [Array.prototype.slice]. *)
Definition relative_index (len i : Z) : Z :=
  if (i <? 0)%Z then Z.max (len + i) 0 else Z.min i len.

(** [Array.prototype.slice(start, end)]. *)
Definition slice (start stop : Z) (l : list A) : list A :=
  let len := Z.of_nat (List.length l) in
  let k := relative_index len start in
  let final := relative_index len stop in
  firstn (Z.to_nat (final - k)) (skipn (Z.to_nat k) l).

End ArraySort.

Arguments insert_sorted {A} after x l.
Arguments array_sort {A} after l.
Arguments slice {A} start stop l.

(** ** Collections and queries *)

Record DB : Type := mkDB {
  db_posts : list Post.t;
  db_likes : list Like.t
}.

(** [Post.findById(id)]. *)
Definition findById (posts : list Post.t) (id : ObjectId) : option Post.t :=
  find (fun p => Post._id p =? id)%nat posts.

(** [doc.save()] of a document read from the collection: the stored
    document with the same [_id] is replaced. *)
Fixpoint save (p : Post.t) (posts : list Post.t) : list Post.t :=
  match posts with
  | [] => []
  | q :: rest =>
      if (Post._id q =? Post._id p)%nat then p :: rest
      else q :: save p rest
  end.

(** [Like.findOne({ userId, postId })]. *)
Definition findLike (likes : list Like.t) (user post : ObjectId)
  : option Like.t :=
  find (fun l => (Like.userId l =? user)%nat && (Like.postId l =? post)%nat)
       likes.

(** [Like.findByIdAndDelete(existingLike._id)], for the like found by
    [findLike]: the first like of that user on that post goes. *)
Fixpoint deleteLike (likes : list Like.t) (user post : ObjectId)
  : list Like.t :=
  match likes with
  | [] => []
  | l :: rest =>
      if (Like.userId l =? user)%nat && (Like.postId l =? post)%nat
      then rest
      else l :: deleteLike rest user post
  end.

(** The batch bound of the ranking pass: [.limit(1000)]. *)
Definition batchLimit : nat := 1000.

(** [Post.find({ isActive: true }).sort({ createdAt: -1 })].  MongoDB
    leaves the order of documents with equal [createdAt] open; the model
    keeps them in collection order. *)
Definition findActiveSorted (posts : list Post.t) : list Post.t :=
  array_sort (fun a b => (Post.createdAt a <? Post.createdAt b)%Z)
             (filter Post.isActive posts).

(** The candidate query of the ranking pass:
    [Post.find({ isActive: true }).sort({ createdAt: -1 }).limit(1000)]. *)
Definition findActiveNewest (posts : list Post.t) : list Post.t :=
  firstn batchLimit (findActiveSorted posts).

(** [getMaxLikes]:
    [Post.findOne({}, 'likes').sort({ likes: -1 }).limit(1)], then
    [maxLikesPost ? maxLikesPost.likes : 0]. *)
Definition getMaxLikes (posts : list Post.t) : Z :=
  match array_sort (fun a b => (Post.likes a <? Post.likes b)%Z) posts with
  | [] => 0%Z
  | maxLikesPost :: _ => Post.likes maxLikesPost
  end.

(** ** Ranked feed *)

(** [{ ...post.toObject(), rankingScore: score }]. *)
Record ScoredPost : Type := mkScored {
  sp_post : Post.t;
  rankingScore : R
}.

(** [{ ...post, isLiked }]. *)
Record FeedPost : Type := mkFeedPost {
  fp_scored : ScoredPost;
  isLiked : bool
}.

Record Feed : Type := mkFeed {
  posts : list FeedPost;
  hasMore : bool;
  total : Z;
  page : Z;
  limit : Z
}.

(** The comparator of the ranking pass:
    [(a, b) => b.rankingScore - a.rankingScore]. *)
Definition compareFn (a b : ScoredPost) : R :=
  rankingScore b - rankingScore a.

Definition compare_after (a b : ScoredPost) : bool :=
  if Rlt_dec 0 (compareFn a b) then true else false.

(** [new Set()] filled with [add], read back with [Array.from]: insertion
    order, no duplicates. *)
Definition set_add (s : list string) (x : string) : list string :=
  if includes s x then s else s ++ [x].

Section Engine.

Variable toLowerCase : string -> string.

(** [getUserLikedTags]: the lower-cased tags of the posts the user has
    liked.  A like whose post no longer exists is populated with [null]
    and skipped. *)
Definition getUserLikedTags (db : DB) (userId : ObjectId) : list string :=
  let userLikes :=
    filter (fun l => (Like.userId l =? userId)%nat) (db_likes db) in
  fold_left
    (fun likedTags like =>
       match findById (db_posts db) (Like.postId like) with
       | Some p =>
           fold_left (fun s tag => set_add s (toLowerCase tag))
                     (Post.tags p) likedTags
       | None => likedTags
       end)
    userLikes [].

(** The ranking pass of [getPersonalizedFeed]: candidates, scores and
    the sort. *)
Definition postsWithScores (db : DB) (userId : ObjectId) (now : Z)
  : list ScoredPost :=
  let userLikedTags := getUserLikedTags db userId in
  let maxLikes := getMaxLikes (db_posts db) in
  let posts := findActiveNewest (db_posts db) in
  array_sort compare_after
    (map (fun post =>
            mkScored post
              (calculateRankingScore toLowerCase now post
                                     userLikedTags maxLikes))
         posts).

Definition getPersonalizedFeed (db : DB) (userId : ObjectId)
    (page limit : Z) (now : Z) : Feed :=
  let skip := ((page - 1) * limit)%Z in
  let ranked := postsWithScores db userId now in
  let paginatedPosts := slice skip (skip + limit) ranked in
  let postIds := map (fun sp => Post._id (sp_post sp)) paginatedPosts in
  let userLikes :=
    filter (fun l => (Like.userId l =? userId)%nat
                     && existsb (Nat.eqb (Like.postId l)) postIds)
           (db_likes db) in
  let likedPostIds := map Like.postId userLikes in
  let postsWithLikeStatus :=
    map (fun sp =>
           mkFeedPost sp
             (existsb (Nat.eqb (Post._id (sp_post sp))) likedPostIds))
        paginatedPosts in
  mkFeed postsWithLikeStatus
         (skip + limit <? Z.of_nat (List.length ranked))%Z
         (Z.of_nat (List.length ranked))
         page limit.

End Engine.

(** ** Request parameters *)

Open Scope Z_scope.

(** The white space [parseInt] skips, as far as it is ASCII: TAB, LF, VT,
    FF, CR and SP. *)
Definition isWhiteSpace (c : ascii) : bool :=
  let n := Z.of_nat (nat_of_ascii c) in
  ((9 <=? n) && (n <=? 13)) || (n =? 32).

Fixpoint trimStart (s : string) : string :=
  match s with
  | String c rest => if isWhiteSpace c then trimStart rest else s
  | EmptyString => s
  end.

Definition digitValue (c : ascii) : option Z :=
  let n := Z.of_nat (nat_of_ascii c) in
  if (48 <=? n) && (n <=? 57) then Some (n - 48)
  else if (97 <=? n) && (n <=? 122) then Some (n - 87)
  else if (65 <=? n) && (n <=? 90) then Some (n - 55)
  else None.

(** The longest prefix of radix digits, read as a number; [None] when
    that prefix is empty. *)
Fixpoint parseDigits (radix : Z) (s : string) (acc : option Z) : option Z :=
  match s with
  | String c rest =>
      match digitValue c with
      | Some d =>
          if d <? radix
          then parseDigits radix rest
                 (Some (match acc with Some a => a * radix + d | None => d end))
          else acc
      | None => acc
      end
  | EmptyString => acc
  end.

(** [parseInt(req.query.x)] with no radix.  An absent parameter is
    [undefined], which reads as the string "undefined" and parses to
    [NaN]; [NaN] is [None].  Steps: skip white space, take the sign, strip
    a [0x] prefix (radix 16, else radix 10), read the digits. *)
Definition parseInt (input : option string) : option Z :=
  match input with
  | None => None
  | Some str =>
      let s := trimStart str in
      let '(sign, s1) :=
        match s with
        | String "-" rest => (-1, rest)
        | String "+" rest => (1, rest)
        | _ => (1, s)
        end in
      let '(radix, s2) :=
        match s1 with
        | String "0" (String "x" rest) => (16, rest)
        | String "0" (String "X" rest) => (16, rest)
        | _ => (10, s1)
        end in
      option_map (Z.mul sign) (parseDigits radix s2 None)
  end.

(** [x || d] on a number: [NaN] and [0] are falsy. *)
Definition or_default (x : option Z) (d : Z) : Z :=
  match x with
  | None => d
  | Some 0 => d
  | Some v => v
  end.

(** ** Route handlers *)

Inductive Response (A : Type) : Type :=
| Json (status : nat) (body : A)
| Error (status : nat) (error : string).

Arguments Json {A} status body.
Arguments Error {A} status error.

Record LikeBody : Type := mkLikeBody {
  message : string;
  reported_likes : Z
}.

Section Routes.

Variable toLowerCase : string -> string.

(** [router.get('/feed', ...)]; [res.json(feed)] answers with status
    200.  A query parameter is absent ([None]) or a string. *)
Definition getFeed (db : DB) (user : ObjectId)
    (query_page query_limit : option string) (now : Z) : Response Feed :=
  let page := or_default (parseInt query_page) 1 in
  let limit := or_default (parseInt query_limit) 10 in
  if (page <? 1) || (limit <? 1) || (limit >? 50)
  then Error 400 "Invalid pagination parameters"
  else Json 200 (getPersonalizedFeed toLowerCase db user page limit now).

End Routes.

(** [router.post('/:id/like', ...)].  [post] is one document object:
    [incrementLikes] mutates it before the response reads [post.likes]. *)
Definition likePost (db : DB) (user postId : ObjectId)
  : DB * Response LikeBody :=
  match findById (db_posts db) postId with
  | None => (db, Error 404 "Post not found")
  | Some post =>
      if negb (Post.isActive post)
      then (db, Error 400 "Cannot like inactive post")
      else
        match findLike (db_likes db) user postId with
        | Some _ => (db, Error 400 "Post already liked")
        | None =>
            let likes' := db_likes db ++ [Like.mk user postId] in
            let post' := Post.incrementLikes post in
            (mkDB (save post' (db_posts db)) likes',
             Json 200 (mkLikeBody "Post liked successfully"
                                  (Post.likes post' + 1)))
        end
  end.

(** [router.delete('/:id/like', ...)]. *)
Definition unlikePost (db : DB) (user postId : ObjectId)
  : DB * Response LikeBody :=
  match findById (db_posts db) postId with
  | None => (db, Error 404 "Post not found")
  | Some post =>
      match findLike (db_likes db) user postId with
      | None => (db, Error 400 "Post not liked")
      | Some _ =>
          let likes' := deleteLike (db_likes db) user postId in
          let post' := Post.decrementLikes post in
          (mkDB (save post' (db_posts db)) likes',
           Json 200 (mkLikeBody "Post unliked successfully"
                                (Z.max 0 (Post.likes post' - 1))))
      end
  end.

(** ** The specification's words *)

(** The composite order of the specification: score descending, then
    [createdAt] descending, then item identifier ascending. *)
Definition spec_before (a b : ScoredPost) : Prop :=
  (rankingScore a > rankingScore b)%R
  \/ (rankingScore a = rankingScore b
      /\ (Post.createdAt (sp_post a) > Post.createdAt (sp_post b)
          \/ (Post.createdAt (sp_post a) = Post.createdAt (sp_post b)
              /\ (Post._id (sp_post a) < Post._id (sp_post b))%nat))).

(** The normalization context of the specification: the maximum like
    count across the candidate pool, [0] for an empty pool. *)
Definition spec_poolMaxLikes (pool : list Post.t) : Z :=
  fold_right (fun p m => Z.max (Post.likes p) m) 0 pool.

(** [toLowerCase] on ASCII text, for concrete runs. *)
Definition asciiLower (c : ascii) : ascii :=
  let n := nat_of_ascii c in
  if ((65 <=? n) && (n <=? 90))%nat then ascii_of_nat (n + 32) else c.

Fixpoint asciiToLowerCase (s : string) : string :=
  match s with
  | EmptyString => EmptyString
  | String c rest => String (asciiLower c) (asciiToLowerCase rest)
  end.

(** ** Orders and page sequences used in the statements *)

(** What [array_sort] establishes between an element and any later one:
    the comparator does not put the first after the second, and where it
    ties them they are in [tie_order], the order of the input. *)
Definition sorted_rel {A : Type} (after : A -> A -> bool)
    (tie_order : A -> A -> Prop) (a b : A) : Prop :=
  after a b = false /\ (after b a = false -> tie_order a b).

Definition newestFirst (a b : Post.t) : Prop :=
  Post.createdAt b <= Post.createdAt a.

(** The order of the ranking pass as the code computes it: score
    descending, then [createdAt] descending. *)
Definition ranked_before (a b : ScoredPost) : Prop :=
  (rankingScore a > rankingScore b)%R
  \/ (rankingScore a = rankingScore b
      /\ Post.createdAt (sp_post b) <= Post.createdAt (sp_post a)).

(** The entries of a given score. *)
Definition score_is (s : R) (sp : ScoredPost) : bool :=
  if Req_dec_T (rankingScore sp) s then true else false.

(** The scored candidates of a pass, in the order of the candidate
    query, before the sort. *)
Definition scoredCandidates (toLowerCase : string -> string) (db : DB)
    (userId : ObjectId) (now : Z) : list ScoredPost :=
  map (fun post =>
         mkScored post
           (calculateRankingScore toLowerCase now post
              (getUserLikedTags toLowerCase db userId)
              (getMaxLikes (db_posts db))))
      (findActiveNewest (db_posts db)).

Definition activePosts (db : DB) : list Post.t :=
  filter Post.isActive (db_posts db).

(** The number of pages of size [k] that [m] items fill. *)
Definition ceil_div (m k : Z) : Z := (m + k - 1) / k.

Definition pageNumbers (n : nat) : list Z := map Z.of_nat (seq 1 n).

Definition feedIds (f : Feed) : list ObjectId :=
  map (fun fp => Post._id (sp_post (fp_scored fp))) (posts f).

(** ** Sample stores *)

Definition samplePost (id : ObjectId) (likes created : Z) : Post.t :=
  Post.mk id 7%nat [] likes 0 0 0 true created 0%Q.

Arguments samplePost id%_nat likes%_Z created%_Z.

(** Five active posts. *)
Definition sampleDB : DB :=
  mkDB [samplePost 1 0 10; samplePost 2 10 20; samplePost 3 100 30;
        samplePost 4 5 40; samplePost 5 1 50]
       [].


(** ** The other routes and queries *)

(** [cursor.limit(n)]: 0 sets no limit, a negative value limits like its
    absolute value. *)
Definition mongo_limit {A : Type} (n : Z) (l : list A) : list A :=
  if n =? 0 then l else firstn (Z.to_nat (Z.abs n)) l.

(** The comparator of [.sort({ engagement: -1, likes: -1 })]. *)
Definition trending_after (a b : Post.t) : bool :=
  match (Post.engagement a ?= Post.engagement b)%Q with
  | Lt => true
  | Eq => Post.likes a <? Post.likes b
  | Gt => false
  end.

(** [Post.getTrending(limit, days)], with the start of the window
    ([dateLimit], computed with [Date.setDate]) as a parameter:
    [find({ isActive: true, createdAt: { $gte: dateLimit } })
     .sort({ engagement: -1, likes: -1 }).limit(limit)]. *)
Definition getTrending (posts : list Post.t) (limit dateLimit : Z)
  : list Post.t :=
  mongo_limit limit
    (array_sort trending_after
       (filter (fun p => Post.isActive p && (dateLimit <=? Post.createdAt p))
               posts)).

(** The posts [find({ isActive: true, tags: { $in: [tag] } })] matches. *)
Definition hasTag (tag : string) (p : Post.t) : bool :=
  Post.isActive p && includes (Post.tags p) tag.

(** [Post.getByTag(tag, page, limit)]:
    [.sort({ createdAt: -1 }).skip(skip).limit(limit)].  MongoDB refuses
    a negative skip; that failure is [None]. *)
Definition getByTag (posts : list Post.t) (tag : string) (page limit : Z)
  : option (list Post.t) :=
  let skip := (page - 1) * limit in
  if skip <? 0 then None
  else Some (mongo_limit limit
               (skipn (Z.to_nat skip)
                  (array_sort
                     (fun a b => Post.createdAt a <? Post.createdAt b)
                     (filter (hasTag tag) posts)))).

(** The like annotation shared by the list routes: the user's likes on
    the listed posts are fetched, and each post is paired with whether
    its identifier is among them. *)
Definition withLikeStatus (likes : list Like.t) (user : ObjectId)
    (posts : list Post.t) : list (Post.t * bool) :=
  let postIds := map Post._id posts in
  let userLikes :=
    filter (fun l => (Like.userId l =? user)%nat
                     && existsb (Nat.eqb (Like.postId l)) postIds)
           likes in
  let likedPostIds := map Like.postId userLikes in
  map (fun post => (post, existsb (Nat.eqb (Post._id post)) likedPostIds))
      posts.

Record TrendingBody : Type := mkTrendingBody {
  tr_posts : list (Post.t * bool);
  tr_hasMore : bool;
  tr_page : Z;
  tr_limit : Z;
  tr_days : Z
}.

Record TagBody : Type := mkTagBody {
  tg_posts : list (Post.t * bool);
  tg_hasMore : bool;
  tg_total : Z;
  tg_page : Z;
  tg_limit : Z;
  tg_tag : string
}.

Section ListRoutes.

(** [daysBefore now days] is the instant [days] calendar days before
    [now], as [dateLimit.setDate(dateLimit.getDate() - days)] computes
    it in the server's time zone. *)
Variable daysBefore : Z -> Z -> Z.

Variable toLowerCase : string -> string.

(** [router.get('/trending', ...)].  [skip] is computed from the page
    and not used. *)
Definition getTrendingRoute (db : DB) (user : ObjectId)
    (query_page query_limit query_days : option string) (now : Z)
  : Response TrendingBody :=
  let page := or_default (parseInt query_page) 1 in
  let limit := or_default (parseInt query_limit) 10 in
  let days := or_default (parseInt query_days) 7 in
  if (page <? 1) || (limit <? 1) || (limit >? 50)
  then Error 400 "Invalid pagination parameters"
  else
    let posts := getTrending (db_posts db) (limit + 1) (daysBefore now days) in
    let hasMore := limit <? Z.of_nat (List.length posts) in
    let paginatedPosts := slice 0 limit posts in
    Json 200 (mkTrendingBody (withLikeStatus (db_likes db) user paginatedPosts)
                             hasMore page limit days).

(** [router.get('/tag/:tag', ...)]. *)
Definition getTagRoute (db : DB) (user : ObjectId) (param_tag : string)
    (query_page query_limit : option string) : Response TagBody :=
  let tag := toLowerCase param_tag in
  let page := or_default (parseInt query_page) 1 in
  let limit := or_default (parseInt query_limit) 10 in
  if (page <? 1) || (limit <? 1) || (limit >? 50)
  then Error 400 "Invalid pagination parameters"
  else
    match getByTag (db_posts db) tag page limit with
    | None => Error 500 "Server error while fetching posts by tag"
    | Some posts =>
        let total :=
          Z.of_nat (List.length (filter (hasTag tag) (db_posts db))) in
        let skip := (page - 1) * limit in
        Json 200 (mkTagBody (withLikeStatus (db_likes db) user posts)
                            (skip + limit <? total) total page limit tag)
    end.

End ListRoutes.

(** [router.get('/:id', ...)]: the post with the view counted, and
    whether the user likes it. *)
Definition getPost (db : DB) (user postId : ObjectId)
  : DB * Response (Post.t * bool) :=
  match findById (db_posts db) postId with
  | None => (db, Error 404 "Post not found")
  | Some post =>
      if negb (Post.isActive post)
      then (db, Error 404 "Post not found")
      else
        let post' := Post.incrementViews post in
        (mkDB (save post' (db_posts db)) (db_likes db),
         Json 200 (post',
                   match findLike (db_likes db) user postId with
                   | Some _ => true
                   | None => false
                   end))
  end.

(** ** Creating a post: the tags *)

Inductive Validation : Type :=
| Valid
| Invalid (error : string).

(** [validateTags]; a [tags] field that is not an array is [None]. *)
Definition validateTags (tags : option (list string)) : Validation :=
  match tags with
  | None => Invalid "Tags must be an array"
  | Some l =>
      if (10 <? List.length l)%nat
      then Invalid "A post can have at most 10 tags"
      else Valid
  end.

Section CreatePost.

Variable toLowerCase : string -> string.

(** [String.prototype.trim]. *)
Variable trim : string -> string.

(** [[...new Set(tags.map(tag => tag.toLowerCase().trim()))]
     .filter(tag => tag.length > 0).slice(0, 10)]. *)
Definition processTags (tags : list string) : list string :=
  slice 0 10
    (filter (fun tag => (0 <? String.length tag)%nat)
       (fold_left set_add (map (fun tag => trim (toLowerCase tag)) tags) [])).

End CreatePost.

(** ** Store invariants *)

(** The number of like documents on a post. *)
Definition likeCount (likes : list Like.t) (post : ObjectId) : nat :=
  List.length (filter (fun l => (Like.postId l =? post)%nat) likes).

(** Every stored counter is the number of like documents. *)
Definition counters_consistent (db : DB) : Prop :=
  forall p, In p (db_posts db) ->
            Post.likes p = Z.of_nat (likeCount (db_likes db) (Post._id p)).

(** What the unique index on [{ userId, postId }] asks for. *)
Definition likes_unique (likes : list Like.t) : Prop :=
  NoDup (map (fun l => (Like.userId l, Like.postId l)) likes).

(** Two versions of a post that differ at most in the like counter and
    the engagement. *)
Definition same_but_likes (p p' : Post.t) : Prop :=
  Post._id p' = Post._id p
  /\ Post.userId p' = Post.userId p
  /\ Post.tags p' = Post.tags p
  /\ Post.comments p' = Post.comments p
  /\ Post.views p' = Post.views p
  /\ Post.shares p' = Post.shares p
  /\ Post.isActive p' = Post.isActive p
  /\ Post.createdAt p' = Post.createdAt p.

(** The order of the trending query: engagement descending, then likes
    descending. *)
Definition trending_before (a b : Post.t) : Prop :=
  (Post.engagement b < Post.engagement a)%Q
  \/ ((Post.engagement a == Post.engagement b)%Q
      /\ Post.likes b <= Post.likes a).

(** The posts of the trending window. *)
Definition inWindow (dateLimit : Z) (p : Post.t) : bool :=
  Post.isActive p && (dateLimit <=? Post.createdAt p).

(** The posts of a tag, newest first: what the pages of the tag route
    are cut from. *)
Definition taggedNewestFirst (posts : list Post.t) (tag : string)
  : list Post.t :=
  array_sort (fun a b => Post.createdAt a <? Post.createdAt b)
             (filter (hasTag tag) posts).

(** The posts of a page of [getByTag], none if the query fails. *)
Definition tagPage (posts : list Post.t) (tag : string) (limit page : Z)
  : list Post.t :=
  match getByTag posts tag page limit with
  | Some l => l
  | None => []
  end.

(** [trim] on ASCII text, for concrete runs. *)
Fixpoint trimEnd (s : string) : string :=
  match s with
  | EmptyString => EmptyString
  | String c rest =>
      match trimEnd rest with
      | EmptyString => if isWhiteSpace c then EmptyString
                       else String c EmptyString
      | r => String c r
      end
  end.

Definition asciiTrim (s : string) : string := trimEnd (trimStart s).

(** Posts with tags. *)
Definition taggedDB : DB :=
  mkDB [Post.mk 1%nat 7%nat ["coq"; "proof"]%string 0 0 0 0 true 10 0%Q;
        Post.mk 2%nat 7%nat ["ocaml"]%string 0 0 0 0 true 20 0%Q;
        Post.mk 3%nat 8%nat ["coq"]%string 0 0 0 0 true 30 0%Q;
        Post.mk 4%nat 8%nat ["coq"]%string 0 0 0 0 false 40 0%Q]
       [Like.mk 7%nat 3%nat].

(** The engagement formula of [updateEngagement]. *)
Definition engagementOf (p : Post.t) : Q :=
  (inject_Z (Post.likes p + Post.comments p * 2 + Post.shares p * 3)
   / inject_Z (Post.views p + 1))%Q.

(** A store whose ranking changes with the clock.  Post 1 is the older
    one and has one like; post 2 is half an hour younger and has none;
    the inactive post 3 holds the largest like count, 7. *)
Definition driftDB : DB :=
  mkDB [Post.mk 1%nat 7%nat [] 1 0 0 0 true 0 1%Q;
        Post.mk 2%nat 7%nat [] 0 0 0 0 true 1800000 0%Q;
        Post.mk 3%nat 7%nat [] 7 0 0 0 false 0 7%Q]
       (Like.mk 8%nat 1%nat
        :: map (fun u => Like.mk u 3%nat)
               [11; 12; 13; 14; 15; 16; 17]%nat).

(** A post with five likes, one of them by user 9. *)
Definition likedDB : DB :=
  mkDB [samplePost 1 5 10]
       (map (fun u => Like.mk u 1%nat) [9; 10; 11; 12; 13]%nat).

(** * Properties *)

(** ** Runs on concrete inputs *)

Example parseInt_decimal : parseInt (Some "12"%string) = Some 12.
Proof. reflexivity. Qed.

Example parseInt_prefix : parseInt (Some "12abc"%string) = Some 12.
Proof. reflexivity. Qed.

Example parseInt_hex : parseInt (Some " -0x1Az"%string) = Some (-26).
Proof. reflexivity. Qed.

Example parseInt_nan :
  parseInt (Some "abc"%string) = None /\ parseInt (Some ""%string) = None
  /\ parseInt None = None.
Proof. repeat split. Qed.

Example or_default_zero :
  or_default (parseInt (Some "0"%string)) 10 = 10
  /\ or_default (parseInt (Some "-5"%string)) 10 = -5.
Proof. split; reflexivity. Qed.

Example toLowerCase_ascii :
  asciiToLowerCase "NodeJS"%string = "nodejs"%string.
Proof. reflexivity. Qed.

Example slice_pages :
  slice 0 2 [1; 2; 3; 4; 5] = [1; 2]
  /\ slice 2 4 [1; 2; 3; 4; 5] = [3; 4]
  /\ slice 4 6 [1; 2; 3; 4; 5] = [5]
  /\ slice 6 8 [1; 2; 3; 4; 5] = []
  /\ slice (-2) 5 [1; 2; 3; 4; 5] = [4; 5].
Proof. repeat split. Qed.

(** A descending sort keeps equal keys in input order. *)
Example array_sort_keeps_ties :
  array_sort (fun a b => fst a <? fst b)
    [(1, "a"); (3, "b"); (1, "c"); (3, "d"); (2, "e")]%string
  = [(3, "b"); (3, "d"); (2, "e"); (1, "a"); (1, "c")]%string.
Proof. reflexivity. Qed.

Example findActiveNewest_sample :
  map Post._id (findActiveNewest (db_posts sampleDB))
  = [5; 4; 3; 2; 1]%nat
  /\ getMaxLikes (db_posts sampleDB) = 100.
Proof. split; reflexivity. Qed.


(** ** Facts about the scorer *)

Lemma includes_In (l : list string) (s : string) :
  includes l s = true <-> In s l.
Proof.
  unfold includes. rewrite existsb_exists. split.
  - intros [x [Hx He]]. apply String.eqb_eq in He. now subst.
  - intros H. exists s. split; [assumption | apply String.eqb_refl].
Qed.

Lemma length_zero_nil (A : Type) (l : list A) :
  (List.length l =? 0)%nat = true <-> l = [].
Proof.
  destruct l; simpl; split; intros H; try reflexivity; discriminate.
Qed.

Lemma ln_nonneg (x : R) : (1 <= x)%R -> (0 <= ln x)%R.
Proof.
  intros [H | H].
  - rewrite <- ln_1. left. apply ln_increasing; lra.
  - rewrite <- H, ln_1. lra.
Qed.

Lemma ln_monotone (x y : R) : (0 < x)%R -> (x <= y)%R -> (ln x <= ln y)%R.
Proof.
  intros Hx [H | H].
  - left. now apply ln_increasing.
  - subst. lra.
Qed.

Lemma ln_pos (x : R) : (1 < x)%R -> (0 < ln x)%R.
Proof. intros H. rewrite <- ln_1. apply ln_increasing; lra. Qed.

Section ScorerFacts.

Variable toLowerCase : string -> string.

Lemma matchingTags_In (user post : list string) (t : string) :
  Forall (fun t => toLowerCase t = t) post ->
  In t (matchingTags toLowerCase user post) <-> In t post /\ In t user.
Proof.
  intros Hn. unfold matchingTags. rewrite filter_In, includes_In.
  rewrite Forall_forall in Hn. split; intros [Hp Hu]; split; auto.
  - now rewrite <- (Hn _ Hp).
  - now rewrite (Hn _ Hp).
Qed.

Lemma matchingTags_length (user post : list string) :
  normalized toLowerCase post ->
  (List.length (matchingTags toLowerCase user post) <= List.length user)%nat.
Proof.
  intros [Hnd Hlow]. apply NoDup_incl_length.
  - unfold matchingTags. now apply NoDup_filter.
  - intros t Ht. now apply (matchingTags_In user post t Hlow) in Ht.
Qed.

Lemma tag_score_range (user post : list string) :
  normalized toLowerCase post ->
  (0 <= calculateTagScore toLowerCase user post <= tagWeight)%R.
Proof.
  intros Hn. unfold calculateTagScore, tagWeight.
  destruct (List.length user =? 0)%nat eqn:Hu; [lra |].
  destruct (List.length post =? 0)%nat eqn:Hp; [lra |].
  apply Nat.eqb_neq in Hu.
  assert (Hlen := matchingTags_length user post Hn).
  apply le_INR in Hlen.
  assert (0 < INR (List.length user))%R
    by (apply lt_0_INR; lia).
  assert (0 <= INR (List.length (matchingTags toLowerCase user post)))%R
    by apply pos_INR.
  set (m := INR (List.length (matchingTags toLowerCase user post))) in *.
  set (n := INR (List.length user)) in *.
  assert (0 <= m / n <= 1)%R.
  { split.
    - apply Rmult_le_pos; [assumption | left; now apply Rinv_0_lt_compat].
    - apply (Rmult_le_reg_r n); [assumption |].
      unfold Rdiv. rewrite Rmult_assoc, Rinv_l; lra. }
  lra.
Qed.

Lemma recency_score_range (h : Z) :
  0 <= h ->
  (0 < calculateRecencyScore h <= recencyWeight)%R.
Proof.
  intros Hh. unfold calculateRecencyScore, recencyWeight.
  apply IZR_le in Hh.
  assert (0 < / (IZR h + 1) <= 1)%R.
  { split.
    - apply Rinv_0_lt_compat. lra.
    - rewrite <- Rinv_1. apply Rinv_le_contravar; lra. }
  lra.
Qed.

Lemma popularity_score_range (likes maxLikes : Z) :
  0 <= likes <= maxLikes ->
  (0 <= calculatePopularityScore likes maxLikes <= popularityWeight)%R.
Proof.
  intros [Hl Hm]. unfold calculatePopularityScore, popularityWeight.
  destruct (maxLikes =? 0) eqn:Hz; [lra |].
  apply Z.eqb_neq in Hz.
  assert (Hpos : 1 <= maxLikes) by lia.
  apply IZR_le in Hl, Hm, Hpos.
  assert (Hd : (0 < ln (IZR maxLikes + 1))%R) by (apply ln_pos; lra).
  assert (Hn : (0 <= ln (IZR likes + 1))%R) by (apply ln_nonneg; lra).
  assert (Hle : (ln (IZR likes + 1) <= ln (IZR maxLikes + 1))%R)
    by (apply ln_monotone; lra).
  set (a := ln (IZR likes + 1)) in *.
  set (b := ln (IZR maxLikes + 1)) in *.
  assert (0 <= a / b <= 1)%R.
  { split.
    - apply Rmult_le_pos; [assumption | left; now apply Rinv_0_lt_compat].
    - apply (Rmult_le_reg_r b); [assumption |].
      unfold Rdiv. rewrite Rmult_assoc, Rinv_l; lra. }
  lra.
Qed.

Lemma hoursSinceCreation_nonneg (now : Z) (p : Post.t) :
  Post.createdAt p <= now -> 0 <= Post.hoursSinceCreation now p.
Proof.
  intros H. unfold Post.hoursSinceCreation.
  apply Z.div_pos; lia.
Qed.

End ScorerFacts.

(** ** The scorer's terms *)

(** C5: for case-normalized, deduplicated tag lists and a non-empty
    profile, the tag-match term is |item tags ∩ profile tags| / |profile
    tags| * 0.4, where the intersection is counted through any
    duplicate-free enumeration [inter] of the common tags; the divisor is
    then not zero.  For an empty profile, or an item without tags, the
    term is exactly 0. *)
Theorem tag_score_formula (toLowerCase : string -> string)
    (userLikedTags postTags inter : list string) :
  normalized toLowerCase userLikedTags ->
  normalized toLowerCase postTags ->
  NoDup inter ->
  (forall t, In t inter <-> In t postTags /\ In t userLikedTags) ->
  (userLikedTags <> [] ->
     calculateTagScore toLowerCase userLikedTags postTags
     = (INR (List.length inter) / INR (List.length userLikedTags) * 0.4)%R
     /\ INR (List.length userLikedTags) <> 0%R)
  /\ (userLikedTags = [] ->
        calculateTagScore toLowerCase userLikedTags postTags = 0%R)
  /\ (postTags = [] ->
        calculateTagScore toLowerCase userLikedTags postTags = 0%R).
Proof.
  intros _ [Hnd Hlow] Hi Hmem. split; [| split].
  - intros Hne.
    assert (Hlen : List.length userLikedTags <> 0%nat)
      by (destruct userLikedTags; [congruence | discriminate]).
    split; [| now apply not_0_INR].
    unfold calculateTagScore, tagWeight.
    apply Nat.eqb_neq in Hlen. rewrite Hlen.
    assert (Hperm :
      Permutation (matchingTags toLowerCase userLikedTags postTags) inter).
    { apply NoDup_Permutation.
      - unfold matchingTags. now apply NoDup_filter.
      - assumption.
      - intros t.
        rewrite (matchingTags_In toLowerCase userLikedTags postTags t Hlow).
        symmetry. apply Hmem. }
    destruct (List.length postTags =? 0)%nat eqn:Hp.
    + apply length_zero_nil in Hp. subst postTags.
      assert (inter = []) as ->.
      { destruct inter as [| t ?]; [reflexivity |].
        destruct (proj1 (Hmem t) (or_introl eq_refl)) as [[] _]. }
      simpl. lra.
    + now rewrite (Permutation_length Hperm).
  - intros ->. reflexivity.
  - intros ->. unfold calculateTagScore.
    destruct (List.length userLikedTags =? 0)%nat; reflexivity.
Qed.

Lemma tag_score_formula_witness :
  calculateTagScore asciiToLowerCase
    ["nodejs"; "coq"; "feed"]%string ["coq"; "nodejs"; "ocaml"]%string
  = (INR 2 / INR 3 * 0.4)%R.
Proof.
  refine (proj1 (proj1
    (tag_score_formula asciiToLowerCase
       ["nodejs"; "coq"; "feed"]%string ["coq"; "nodejs"; "ocaml"]%string
       ["coq"; "nodejs"]%string _ _ _ _) _)).
  - split; [| repeat constructor].
    repeat constructor; simpl; intuition discriminate.
  - split; [| repeat constructor].
    repeat constructor; simpl; intuition discriminate.
  - repeat constructor; simpl; intuition discriminate.
  - intros t; simpl; split.
    + intros [<- | [<- | []]]; intuition.
    + intros [[<- | [<- | [<- | []]]] [H | [H | [H | []]]]];
        try discriminate H; intuition.
  - discriminate.
Defined.

(** C6: for a positive maximum the popularity term is
    log(likes + 1) / log(maxLikes + 1) * 0.3 and its divisor is not zero;
    for [maxLikes = 0] the guard answers 0 and the division, whose divisor
    log(1) is zero, is not reached. *)
Theorem popularity_score_guarded (likes maxLikes : Z) :
  (0 < maxLikes ->
     calculatePopularityScore likes maxLikes
     = (ln (IZR likes + 1) / ln (IZR maxLikes + 1) * 0.3)%R
     /\ ln (IZR maxLikes + 1) <> 0%R)
  /\ (maxLikes = 0 ->
        calculatePopularityScore likes maxLikes = 0%R
        /\ ln (IZR maxLikes + 1) = 0%R).
Proof.
  split.
  - intros Hm. unfold calculatePopularityScore, popularityWeight.
    assert (Hz : maxLikes <> 0) by lia.
    apply Z.eqb_neq in Hz. rewrite Hz. split; [reflexivity |].
    apply IZR_lt in Hm.
    assert (0 < ln (IZR maxLikes + 1))%R by (apply ln_pos; lra).
    lra.
  - intros ->. split; [reflexivity |].
    replace (0 + 1)%R with 1%R by lra. apply ln_1.
Qed.

Lemma popularity_score_guarded_witness :
  calculatePopularityScore 10 100
  = (ln (IZR 10 + 1) / ln (IZR 100 + 1) * 0.3)%R
  /\ calculatePopularityScore 10 0 = 0%R.
Proof.
  split.
  - apply (proj1 (popularity_score_guarded 10 100)). lia.
  - apply (proj2 (popularity_score_guarded 10 0)). reflexivity.
Defined.

(** C1, as the code has it: for a post created no later than the
    current time, with case-normalized, deduplicated tags and a like count
    between 0 and the normalization maximum, the score lies in [0, 1] and
    the recency term in (0, 0.3].  The age is not clamped. *)
Theorem ranking_score_bounded (toLowerCase : string -> string) (now : Z)
    (post : Post.t) (userLikedTags : list string) (maxLikes : Z) :
  Post.createdAt post <= now ->
  normalized toLowerCase (Post.tags post) ->
  0 <= Post.likes post <= maxLikes ->
  (0 <= calculateRankingScore toLowerCase now post userLikedTags maxLikes
     <= 1)%R
  /\ (0 < calculateRecencyScore (Post.hoursSinceCreation now post)
        <= 0.3)%R.
Proof.
  intros Hage Htags Hlikes.
  assert (Ht := tag_score_range toLowerCase userLikedTags _ Htags).
  assert (Hr := recency_score_range _
                  (hoursSinceCreation_nonneg now post Hage)).
  assert (Hp := popularity_score_range _ _ Hlikes).
  unfold calculateRankingScore.
  unfold tagWeight, recencyWeight, popularityWeight in *.
  split; lra.
Qed.

Lemma ranking_score_bounded_witness :
  let post := Post.mk 1%nat 7%nat ["coq"]%string 10 0 0 0 true 0 0%Q in
  (0 <= calculateRankingScore asciiToLowerCase 7200000 post
          ["coq"; "feed"]%string 100 <= 1)%R.
Proof.
  intros post.
  refine (proj1 (ranking_score_bounded asciiToLowerCase 7200000 post
                   ["coq"; "feed"]%string 100 _ _ _)).
  - simpl. lia.
  - split; [| repeat constructor].
    repeat constructor; simpl; intuition.
  - simpl. lia.
Defined.

(** C1 fails as stated: a post created two hours after the current time
    has age -2, not 0, and its score is -0.3. *)
Lemma ranking_score_negative_age :
  let post := Post.mk 1%nat 7%nat [] 0 0 0 0 true 7200000 0%Q in
  Post.hoursSinceCreation 0 post = -2
  /\ calculateRankingScore asciiToLowerCase 0 post [] 0 = (-0.3)%R
  /\ ~ (0 <= calculateRankingScore asciiToLowerCase 0 post [] 0 <= 1)%R.
Proof.
  intros post.
  assert (Hh : Post.hoursSinceCreation 0 post = -2) by reflexivity.
  assert (Hs : calculateRankingScore asciiToLowerCase 0 post [] 0
               = (-0.3)%R).
  { unfold calculateRankingScore. rewrite Hh.
    unfold calculateTagScore, calculateRecencyScore,
      calculatePopularityScore, recencyWeight.
    simpl. lra. }
  repeat split; try assumption.
  rewrite Hs. lra.
Qed.

(** The bound on the score needs its other two premises as well.  With
    a like count above the normalization maximum the popularity term
    alone exceeds 1. *)
Lemma ranking_score_likes_above_max :
  let post := Post.mk 1%nat 7%nat [] 15 0 0 0 true 0 0%Q in
  (calculateRankingScore asciiToLowerCase 0 post [] 1 = 1.5)%R.
Proof.
  intros post. unfold calculateRankingScore.
  change (Post.hoursSinceCreation 0 post) with 0.
  unfold calculateTagScore, calculateRecencyScore,
    calculatePopularityScore, recencyWeight, popularityWeight.
  cbn [Post.tags Post.likes post List.length Nat.eqb Z.eqb].
  replace (15 + 1)%R with (2 ^ 4)%R by lra.
  replace (1 + 1)%R with 2%R by lra.
  rewrite ln_pow by lra.
  assert (H : (0 < ln 2)%R) by (apply ln_pos; lra).
  simpl INR.
  replace ((1 + 1 + 1 + 1) * ln 2 / ln 2)%R with 4%R by (field; lra).
  lra.
Qed.

(** With a duplicated item tag the tag-match term exceeds its weight. *)
Lemma ranking_score_duplicate_tags :
  let post := Post.mk 1%nat 7%nat ["a"; "a"]%string 0 0 0 0 true 0 0%Q in
  (calculateRankingScore asciiToLowerCase 0 post ["a"]%string 0 = 1.1)%R.
Proof.
  intros post. unfold calculateRankingScore.
  change (Post.hoursSinceCreation 0 post) with 0.
  unfold calculateTagScore, calculateRecencyScore,
    calculatePopularityScore, tagWeight, recencyWeight.
  change (matchingTags asciiToLowerCase ["a"]%string (Post.tags post))
    with ["a"; "a"]%string.
  cbn [Post.tags Post.likes post List.length Nat.eqb Z.eqb].
  simpl INR. lra.
Qed.

(** ** Facts about arrays *)

Section ArraySortFacts.

Variable A : Type.
Variable after : A -> A -> bool.

Lemma insert_sorted_perm (x : A) (l : list A) :
  Permutation (insert_sorted after x l) (x :: l).
Proof.
  induction l as [| y l IH]; simpl.
  - reflexivity.
  - destruct (after x y).
    + rewrite IH. apply perm_swap.
    + reflexivity.
Qed.

Lemma array_sort_perm (l : list A) : Permutation (array_sort after l) l.
Proof.
  induction l as [| x l IH]; simpl.
  - constructor.
  - rewrite insert_sorted_perm. now constructor.
Qed.

Lemma array_sort_length (l : list A) :
  List.length (array_sort after l) = List.length l.
Proof. apply Permutation_length, array_sort_perm. Qed.

Lemma array_sort_In (l : list A) (x : A) :
  In x (array_sort after l) <-> In x l.
Proof.
  split; apply Permutation_in;
    [| symmetry]; apply array_sort_perm.
Qed.

(** Stability: elements that the comparator never puts after one
    another keep their input order. *)
Lemma insert_sorted_filter (P : A -> bool) (x : A) (l : list A) :
  (forall a b, P a = true -> P b = true -> after a b = false) ->
  filter P (insert_sorted after x l) = filter P (x :: l).
Proof.
  intros HP. induction l as [| y l IH]; [reflexivity |].
  cbn [insert_sorted]. destruct (after x y) eqn:E; [| reflexivity].
  cbn [filter] in *. rewrite IH.
  destruct (P x) eqn:Ex, (P y) eqn:Ey; try reflexivity.
  rewrite (HP x y Ex Ey) in E. discriminate E.
Qed.

Lemma array_sort_stable (P : A -> bool) (l : list A) :
  (forall a b, P a = true -> P b = true -> after a b = false) ->
  filter P (array_sort after l) = filter P l.
Proof.
  intros HP. induction l as [| x l IH]; [reflexivity |].
  cbn [array_sort fold_right]. fold (array_sort after l).
  rewrite insert_sorted_filter by assumption.
  cbn [filter]. now rewrite IH.
Qed.

(** A consistent comparator: [after] is asymmetric and its complement
    is transitive. *)
Hypothesis after_asym : forall x y, after x y = true -> after y x = false.
Hypothesis after_trans :
  forall x y z, after x y = false -> after y z = false -> after x z = false.

(** The order of the input among elements the comparator ties. *)
Variable tie_order : A -> A -> Prop.

Lemma insert_sorted_sorted (x : A) (l : list A) :
  Forall (tie_order x) l ->
  StronglySorted (sorted_rel after tie_order) l ->
  StronglySorted (sorted_rel after tie_order) (insert_sorted after x l).
Proof.
  intros Hx Hl. induction Hl as [| y l Hl IH Hy]; simpl.
  - repeat constructor.
  - inversion Hx as [| ? ? Hxy Hxl]; subst.
    destruct (after x y) eqn:E.
    + constructor; [now apply IH |].
      rewrite Forall_forall. intros z Hz.
      apply (Permutation_in _ (insert_sorted_perm x l)) in Hz.
      destruct Hz as [<- | Hz].
      * split; [apply after_asym; exact E |].
        intros H. rewrite E in H. discriminate H.
      * rewrite Forall_forall in Hy. now apply Hy.
    + constructor; [now constructor |].
      constructor; [split; auto |].
      rewrite Forall_forall in *. intros z Hz. split.
      * apply after_trans with y; [assumption | apply (Hy z Hz)].
      * intros _. now apply Hxl.
Qed.

(** Sorting a list that is ordered by [tie_order] gives a list ordered
    by the comparator, and by [tie_order] where the comparator ties. *)
Lemma array_sort_sorted (l : list A) :
  StronglySorted tie_order l ->
  StronglySorted (sorted_rel after tie_order) (array_sort after l).
Proof.
  induction 1 as [| x l Hl IH Hx]; simpl.
  - constructor.
  - apply insert_sorted_sorted; [| assumption].
    rewrite Forall_forall in Hx. apply Forall_forall. intros z Hz.
    apply Hx. exact (proj1 (array_sort_In l z) Hz).
Qed.

End ArraySortFacts.

Lemma StronglySorted_weaken (A : Type) (R1 R2 : A -> A -> Prop)
    (l : list A) :
  (forall a b, R1 a b -> R2 a b) ->
  StronglySorted R1 l -> StronglySorted R2 l.
Proof.
  intros HR. induction 1 as [| x l Hl IH Hx]; constructor; auto.
  eapply Forall_impl; [| exact Hx]. auto.
Qed.

Lemma In_firstn (A : Type) (n : nat) (l : list A) (x : A) :
  In x (firstn n l) -> In x l.
Proof.
  revert l. induction n as [| n IHn]; intros [| y l]; simpl; try tauto.
  intros [-> | Hz]; [now left | right; now apply IHn].
Qed.

Lemma In_skipn (A : Type) (n : nat) (l : list A) (x : A) :
  In x (skipn n l) -> In x l.
Proof.
  revert l. induction n as [| n IHn]; intros [| y l]; simpl; try tauto.
  intros Hz. right. now apply IHn.
Qed.

Lemma StronglySorted_firstn (A : Type) (R1 : A -> A -> Prop) (n : nat)
    (l : list A) :
  StronglySorted R1 l -> StronglySorted R1 (firstn n l).
Proof.
  intros H. revert n. induction H as [| x l Hl IH Hx]; intros [| n]; simpl;
    try constructor; auto.
  rewrite Forall_forall in Hx. apply Forall_forall. intros z Hz. apply Hx.
  now apply In_firstn in Hz.
Qed.

Lemma StronglySorted_map (A B : Type) (f : A -> B) (R1 : B -> B -> Prop)
    (l : list A) :
  StronglySorted (fun a b => R1 (f a) (f b)) l ->
  StronglySorted R1 (map f l).
Proof.
  induction 1 as [| x l Hl IH Hx]; simpl; constructor; auto.
  rewrite Forall_forall in Hx. apply Forall_forall. intros y Hy.
  apply in_map_iff in Hy. destruct Hy as [z [<- Hz]]. now apply Hx.
Qed.

Lemma firstn_plus (A : Type) (a b : nat) (l : list A) :
  firstn (a + b) l = firstn a l ++ firstn b (skipn a l).
Proof.
  revert l. induction a as [| a IH]; intros l; simpl.
  - reflexivity.
  - destruct l as [| x l]; simpl.
    + now rewrite firstn_nil.
    + now rewrite IH.
Qed.

(** [slice] between two indices that are not negative. *)
Lemma slice_nonneg (A : Type) (a b : nat) (l : list A) :
  slice (Z.of_nat a) (Z.of_nat a + Z.of_nat b) l = firstn b (skipn a l).
Proof.
  unfold slice, relative_index.
  assert (Ha : (Z.of_nat a <? 0) = false) by (apply Z.ltb_ge; lia).
  assert (Hb : (Z.of_nat a + Z.of_nat b <? 0) = false)
    by (apply Z.ltb_ge; lia).
  rewrite Ha, Hb.
  destruct (le_lt_dec (List.length l) a) as [Hge | Hlt].
  - rewrite !Z.min_r by lia. rewrite Z.sub_diag. simpl.
    rewrite (skipn_all2 l) by lia. now rewrite firstn_nil.
  - rewrite (Z.min_l (Z.of_nat a)) by lia. rewrite Nat2Z.id.
    assert (Hlen : List.length (skipn a l) = (List.length l - a)%nat)
      by apply length_skipn.
    destruct (le_lt_dec (a + b) (List.length l)) as [Hin | Hout].
    + rewrite Z.min_l by lia. f_equal. lia.
    + rewrite Z.min_r by lia.
      replace (Z.to_nat (Z.of_nat (List.length l) - Z.of_nat a))
        with (List.length (skipn a l)) by lia.
      rewrite firstn_all. symmetry. apply firstn_all2. lia.
Qed.

Lemma slice_map (A B : Type) (f : A -> B) (s e : Z) (l : list A) :
  slice s e (map f l) = map f (slice s e l).
Proof.
  unfold slice. rewrite length_map.
  now rewrite skipn_map, firstn_map.
Qed.

(** Consecutive windows of width [k] add up to a prefix. *)
Lemma windows_concat (A : Type) (k n : nat) (l : list A) :
  List.concat (map (fun i => firstn k (skipn (i * k) l)) (seq 0 n))
  = firstn (n * k) l.
Proof.
  induction n as [| n IH].
  - reflexivity.
  - rewrite seq_S, map_app, concat_app, IH. simpl.
    rewrite app_nil_r. replace (k + n * k)%nat with (n * k + k)%nat by lia.
    symmetry. apply firstn_plus.
Qed.

Lemma ceil_div_covers (m k : Z) : 0 < k -> m <= ceil_div m k * k.
Proof.
  intros Hk. unfold ceil_div.
  pose proof (Z.mul_div_le (m + k - 1) k Hk).
  pose proof (Z.mod_pos_bound (m + k - 1) k Hk).
  pose proof (Z.div_mod (m + k - 1) k). lia.
Qed.

Lemma ceil_div_nonneg (m k : Z) : 0 < k -> 0 <= m -> 0 <= ceil_div m k.
Proof.
  intros Hk Hm. unfold ceil_div. apply Z.div_pos; lia.
Qed.

(** ** Facts about the queries *)

Lemma compare_after_true (a b : ScoredPost) :
  compare_after a b = true <-> (rankingScore a < rankingScore b)%R.
Proof.
  unfold compare_after, compareFn.
  destruct (Rlt_dec 0 (rankingScore b - rankingScore a)); split; intros H;
    try reflexivity; try discriminate; lra.
Qed.

Lemma compare_after_false (a b : ScoredPost) :
  compare_after a b = false <-> (rankingScore b <= rankingScore a)%R.
Proof.
  unfold compare_after, compareFn.
  destruct (Rlt_dec 0 (rankingScore b - rankingScore a)); split; intros H;
    try reflexivity; try discriminate; lra.
Qed.

Lemma findActiveSorted_sorted (posts : list Post.t) :
  StronglySorted newestFirst (findActiveSorted posts).
Proof.
  unfold findActiveSorted.
  apply StronglySorted_weaken
    with (R1 := sorted_rel
                  (fun a b => Post.createdAt a <? Post.createdAt b)
                  (fun _ _ => True)).
  - intros a b [H _]. unfold newestFirst. now apply Z.ltb_ge in H.
  - apply array_sort_sorted.
    + intros x y H. apply Z.ltb_lt in H. apply Z.ltb_ge. lia.
    + intros x y z H1 H2. apply Z.ltb_ge in H1, H2. apply Z.ltb_ge. lia.
    + induction (filter Post.isActive posts); constructor; auto.
      now apply Forall_forall.
Qed.


Lemma findActiveNewest_sorted (posts : list Post.t) :
  StronglySorted newestFirst (findActiveNewest posts).
Proof.
  unfold findActiveNewest. apply StronglySorted_firstn.
  apply findActiveSorted_sorted.
Qed.

Lemma findActiveNewest_length (posts : list Post.t) :
  List.length (findActiveNewest posts)
  = Nat.min batchLimit (List.length (filter Post.isActive posts)).
Proof.
  unfold findActiveNewest, findActiveSorted.
  now rewrite length_firstn, array_sort_length.
Qed.

Lemma findActiveNewest_active (posts : list Post.t) (p : Post.t) :
  In p (findActiveNewest posts) -> In p posts /\ Post.isActive p = true.
Proof.
  unfold findActiveNewest, findActiveSorted. intros H.
  apply In_firstn in H.
  apply (proj1 (array_sort_In _ _ _ _)) in H. now apply filter_In in H.
Qed.

Lemma findActiveNewest_all (posts : list Post.t) :
  (List.length (filter Post.isActive posts) <= batchLimit)%nat ->
  Permutation (findActiveNewest posts) (filter Post.isActive posts).
Proof.
  intros H. unfold findActiveNewest, findActiveSorted.
  rewrite firstn_all2 by now rewrite array_sort_length.
  apply array_sort_perm.
Qed.

(** ** Facts about the ranking pass *)

Section RankingFacts.

Variable toLowerCase : string -> string.
Variable db : DB.
Variable user : ObjectId.
Variable now : Z.

Lemma postsWithScores_perm :
  Permutation (map sp_post (postsWithScores toLowerCase db user now))
              (findActiveNewest (db_posts db)).
Proof.
  unfold postsWithScores.
  rewrite (Permutation_map sp_post (array_sort_perm _ compare_after _)).
  rewrite map_map. simpl. now rewrite map_id.
Qed.

Lemma postsWithScores_length :
  List.length (postsWithScores toLowerCase db user now)
  = List.length (findActiveNewest (db_posts db)).
Proof.
  rewrite <- (Permutation_length postsWithScores_perm).
  now rewrite length_map.
Qed.

Lemma postsWithScores_score (sp : ScoredPost) :
  In sp (postsWithScores toLowerCase db user now) ->
  In (sp_post sp) (findActiveNewest (db_posts db))
  /\ rankingScore sp
     = calculateRankingScore toLowerCase now (sp_post sp)
         (getUserLikedTags toLowerCase db user)
         (getMaxLikes (db_posts db)).
Proof.
  unfold postsWithScores. intros H.
  apply (proj1 (array_sort_In _ _ _ _)) in H.
  apply in_map_iff in H. destruct H as [p [<- Hp]]. now split.
Qed.

Lemma postsWithScores_sorted :
  StronglySorted ranked_before (postsWithScores toLowerCase db user now).
Proof.
  unfold postsWithScores.
  apply StronglySorted_weaken
    with (R1 := sorted_rel compare_after
                  (fun a b => newestFirst (sp_post a) (sp_post b))).
  - intros a b [Hab Htie]. apply compare_after_false in Hab.
    unfold ranked_before.
    destruct (Rtotal_order (rankingScore a) (rankingScore b))
      as [Hlt | [Heq | Hgt]].
    + lra.
    + right. split; [assumption |]. apply Htie.
      apply compare_after_false. lra.
    + now left.
  - apply array_sort_sorted.
    + intros x y H. apply compare_after_true in H.
      apply compare_after_false. lra.
    + intros x y z H1 H2. apply compare_after_false in H1, H2.
      apply compare_after_false. lra.
    + apply StronglySorted_map with (f := fun post => mkScored post _).
      simpl. apply findActiveNewest_sorted.
Qed.

End RankingFacts.

(** ** The normalization constant *)

Lemma getMaxLikes_upper (posts : list Post.t) (p : Post.t) :
  In p posts -> Post.likes p <= getMaxLikes posts.
Proof.
  intros Hp. unfold getMaxLikes.
  set (after := fun a b => Post.likes a <? Post.likes b).
  assert (Hs : StronglySorted (sorted_rel after (fun _ _ => True))
                              (array_sort after posts)).
  { apply array_sort_sorted.
    - intros x y H. apply Z.ltb_lt in H. apply Z.ltb_ge. lia.
    - intros x y z H1 H2. apply Z.ltb_ge in H1, H2. apply Z.ltb_ge. lia.
    - clear. induction posts; constructor; auto. now apply Forall_forall. }
  apply (proj2 (array_sort_In _ after posts p)) in Hp.
  destruct (array_sort after posts) as [| q rest]; [contradiction |].
  destruct Hp as [-> | Hp]; [lia |].
  inversion Hs as [| ? ? _ Hq]; subst.
  rewrite Forall_forall in Hq. destruct (Hq p Hp) as [H _].
  unfold after in H. apply Z.ltb_ge in H. exact H.
Qed.

Lemma getMaxLikes_attained (posts : list Post.t) :
  posts <> [] -> exists p, In p posts /\ getMaxLikes posts = Post.likes p.
Proof.
  intros Hne. unfold getMaxLikes.
  set (after := fun a b => Post.likes a <? Post.likes b).
  destruct (array_sort after posts) as [| q rest] eqn:E.
  - assert (H := array_sort_length _ after posts). rewrite E in H.
    destruct posts; [congruence | discriminate].
  - exists q. split; [| reflexivity].
    apply (array_sort_In _ after posts q). rewrite E. now left.
Qed.

(** ** The total order of the ranking *)

(** C3, as the code has it: the ranking pass returns the scored
    candidates ordered by score descending and, among equal scores, by
    [createdAt] descending.  The sort is stable and its comparator reads
    the score alone: it ties any two items of equal score, and the
    entries of one score stay in the order of the candidate query.  No
    identifier key breaks a tie. *)
Theorem ranking_order (toLowerCase : string -> string) (db : DB)
    (user : ObjectId) (now : Z) :
  Permutation (map sp_post (postsWithScores toLowerCase db user now))
              (findActiveNewest (db_posts db))
  /\ StronglySorted ranked_before (postsWithScores toLowerCase db user now)
  /\ (forall a b : ScoredPost,
        compareFn a b = 0%R <-> rankingScore a = rankingScore b)
  /\ (forall s : R,
        filter (score_is s) (postsWithScores toLowerCase db user now)
        = filter (score_is s) (scoredCandidates toLowerCase db user now)).
Proof.
  split; [apply postsWithScores_perm |].
  split; [apply postsWithScores_sorted |].
  split.
  - intros a b. unfold compareFn. split; intros H; lra.
  - intros s. unfold postsWithScores.
    fold (scoredCandidates toLowerCase db user now).
    apply array_sort_stable. intros a b Ha Hb.
    unfold score_is in Ha, Hb.
    destruct (Req_dec_T (rankingScore a) s); [| discriminate].
    destruct (Req_dec_T (rankingScore b) s); [| discriminate].
    apply compare_after_false. lra.
Qed.

(** The ranking of two active posts that agree on tags, like count and
    creation time, for a user without likes: they stay as the collection
    has them. *)
Lemma rank_tied_pair (a b : Post.t) (s : R) :
  Post.isActive a = true -> Post.isActive b = true ->
  Post.createdAt a = Post.createdAt b ->
  calculateRankingScore asciiToLowerCase 0 a []
    (getMaxLikes [a; b]) = s ->
  calculateRankingScore asciiToLowerCase 0 b []
    (getMaxLikes [a; b]) = s ->
  postsWithScores asciiToLowerCase (mkDB [a; b] []) 7%nat 0
  = [mkScored a s; mkScored b s].
Proof.
  intros Ha Hb Hc Hsa Hsb. unfold postsWithScores.
  change (getUserLikedTags asciiToLowerCase (mkDB [a; b] []) 7%nat)
    with (@nil string).
  cbn [db_posts].
  assert (Hpool : findActiveNewest [a; b] = [a; b]).
  { unfold findActiveNewest, findActiveSorted. cbn [filter].
    rewrite Ha, Hb. cbn [array_sort fold_right insert_sorted].
    rewrite Hc, Z.ltb_irrefl. reflexivity. }
  rewrite Hpool. cbn [map]. rewrite Hsa, Hsb.
  cbn [array_sort fold_right insert_sorted].
  assert (Htie : compare_after (mkScored a s) (mkScored b s) = false)
    by (apply compare_after_false; simpl; lra).
  now rewrite Htie.
Qed.

(** C3 fails as stated: two distinct posts with the same tags, like count
    and creation time tie under the comparator.  The pass leaves them as
    the collection has them: identifier 2 before identifier 1 for one
    collection order, where the composite order of the specification puts
    identifier 1 first, and the other way round for the other. *)
Lemma ranking_ties_ignore_id :
  let a := Post.mk 2%nat 7%nat [] 0 0 0 0 true 0 0%Q in
  let b := Post.mk 1%nat 7%nat [] 0 0 0 0 true 0 0%Q in
  exists sa sb,
    postsWithScores asciiToLowerCase (mkDB [a; b] []) 7%nat 0 = [sa; sb]
    /\ postsWithScores asciiToLowerCase (mkDB [b; a] []) 7%nat 0 = [sb; sa]
    /\ sp_post sa = a /\ sp_post sb = b
    /\ compareFn sa sb = 0%R
    /\ spec_before sb sa.
Proof.
  intros a b.
  set (s := calculateRankingScore asciiToLowerCase 0 a [] 0).
  exists (mkScored a s), (mkScored b s).
  split; [now apply rank_tied_pair |].
  split; [now apply rank_tied_pair |].
  split; [reflexivity |]. split; [reflexivity |].
  split.
  - unfold compareFn. simpl. lra.
  - right. simpl. split; [reflexivity |]. right. split; [reflexivity | lia].
Qed.

(** ** The normalization context *)

(** C4, as the code has it: the normalization constant of a ranking
    pass is the largest like count of the whole posts collection, active
    or not and without the batch bound, and 0 for an empty collection.  It
    bounds the like count of every candidate, and it is the constant every
    candidate of the pass is scored with. *)
Theorem maxLikes_from_collection (toLowerCase : string -> string)
    (db : DB) (user : ObjectId) (now : Z) :
  (forall p, In p (db_posts db) ->
             Post.likes p <= getMaxLikes (db_posts db))
  /\ (db_posts db <> [] ->
      exists p, In p (db_posts db)
                /\ getMaxLikes (db_posts db) = Post.likes p)
  /\ (db_posts db = [] -> getMaxLikes (db_posts db) = 0)
  /\ (forall p, In p (findActiveNewest (db_posts db)) ->
                Post.likes p <= getMaxLikes (db_posts db))
  /\ (forall sp, In sp (postsWithScores toLowerCase db user now) ->
        rankingScore sp
        = calculateRankingScore toLowerCase now (sp_post sp)
            (getUserLikedTags toLowerCase db user)
            (getMaxLikes (db_posts db))).
Proof.
  split; [intros p; apply getMaxLikes_upper |].
  split; [apply getMaxLikes_attained |].
  split; [intros ->; reflexivity |].
  split.
  - intros p Hp. apply getMaxLikes_upper.
    now apply findActiveNewest_active in Hp.
  - intros sp Hsp. now apply postsWithScores_score in Hsp.
Qed.

Lemma maxLikes_from_collection_witness :
  let viral := Post.mk 1%nat 7%nat [] 100 0 0 0 false 0 0%Q in
  let fresh := Post.mk 2%nat 7%nat [] 10 0 0 0 true 5 0%Q in
  exists p, In p [viral; fresh]
            /\ getMaxLikes [viral; fresh] = Post.likes p.
Proof.
  intros viral fresh.
  apply (proj1 (proj2
    (maxLikes_from_collection asciiToLowerCase
       (mkDB [viral; fresh] []) 7%nat 0))).
  discriminate.
Defined.

(** C4 fails as stated: with an inactive post of 100 likes and an active
    post of 10 likes, the candidate pool is the active post alone and its
    maximum is 10, but the pass normalizes with 100. *)
Lemma maxLikes_not_from_pool :
  let viral := Post.mk 1%nat 7%nat [] 100 0 0 0 false 0 0%Q in
  let fresh := Post.mk 2%nat 7%nat [] 10 0 0 0 true 5 0%Q in
  findActiveNewest [viral; fresh] = [fresh]
  /\ spec_poolMaxLikes (findActiveNewest [viral; fresh]) = 10
  /\ getMaxLikes [viral; fresh] = 100
  /\ getMaxLikes [viral; fresh]
     <> spec_poolMaxLikes (findActiveNewest [viral; fresh]).
Proof.
  intros viral fresh. repeat split; try reflexivity.
  vm_compute. discriminate.
Qed.

(** ** Facts about pages *)

Lemma NoDup_map_filter (A B : Type) (f : A -> B) (P : A -> bool)
    (l : list A) :
  NoDup (map f l) -> NoDup (map f (filter P l)).
Proof.
  induction l as [| x l IH]; simpl; intros H; [constructor |].
  inversion H as [| ? ? Hx Hl]; subst.
  destruct (P x); simpl; [constructor |]; auto.
  intros Hin. apply Hx. apply in_map_iff in Hin.
  destruct Hin as [y [Hy Hin]]. apply filter_In in Hin.
  apply in_map_iff. exists y. tauto.
Qed.

Lemma pageNumbers_shift (n : nat) :
  pageNumbers n = map (fun i => Z.of_nat (S i)) (seq 0 n).
Proof.
  unfold pageNumbers. now rewrite <- seq_shift, map_map.
Qed.

Section PageFacts.

Variable toLowerCase : string -> string.
Variable db : DB.
Variable user : ObjectId.
Variable now : Z.

Lemma feed_page_scored (i k : nat) :
  map fp_scored
    (posts (getPersonalizedFeed toLowerCase db user
              (Z.of_nat (S i)) (Z.of_nat k) now))
  = firstn k (skipn (i * k) (postsWithScores toLowerCase db user now)).
Proof.
  unfold getPersonalizedFeed. cbn [posts].
  rewrite map_map. cbn [fp_scored]. rewrite map_id.
  replace ((Z.of_nat (S i) - 1) * Z.of_nat k) with (Z.of_nat (i * k))
    by lia.
  apply slice_nonneg.
Qed.

Lemma feed_page_ids (i k : nat) :
  feedIds (getPersonalizedFeed toLowerCase db user
             (Z.of_nat (S i)) (Z.of_nat k) now)
  = firstn k
      (skipn (i * k)
         (map (fun sp => Post._id (sp_post sp))
              (postsWithScores toLowerCase db user now))).
Proof.
  unfold feedIds.
  rewrite <- (map_map fp_scored (fun sp => Post._id (sp_post sp))).
  rewrite feed_page_scored. now rewrite skipn_map, firstn_map.
Qed.

Lemma feed_hasMore (p k : Z) :
  hasMore (getPersonalizedFeed toLowerCase db user p k now)
  = ((p - 1) * k + k
     <? Z.of_nat (List.length (findActiveNewest (db_posts db)))).
Proof.
  unfold getPersonalizedFeed. cbn [hasMore].
  now rewrite postsWithScores_length.
Qed.

Lemma feed_total (p k : Z) :
  total (getPersonalizedFeed toLowerCase db user p k now)
  = Z.of_nat (List.length (findActiveNewest (db_posts db))).
Proof.
  unfold getPersonalizedFeed. cbn [total].
  now rewrite postsWithScores_length.
Qed.

(** A page that starts at or past the end of the ranking is empty. *)
Lemma feed_page_past_end (p k : Z) :
  1 <= p -> 0 <= k ->
  Z.of_nat (List.length (findActiveNewest (db_posts db))) <= (p - 1) * k ->
  posts (getPersonalizedFeed toLowerCase db user p k now) = [].
Proof.
  intros Hp Hk Hend.
  apply (map_eq_nil fp_scored).
  replace p with (Z.of_nat (S (Z.to_nat (p - 1)))) by lia.
  replace k with (Z.of_nat (Z.to_nat k)) at 1 by lia.
  rewrite feed_page_scored.
  rewrite skipn_all2; [apply firstn_nil |].
  rewrite postsWithScores_length. nia.
Qed.


(** The pages 1 to [n] of size [k], one after the other, are the first
    [n * k] entries of the ranking. *)
Lemma pages_concat (n k : nat) :
  List.concat
    (map (fun p => feedIds (getPersonalizedFeed toLowerCase db user
                              p (Z.of_nat k) now))
         (pageNumbers n))
  = firstn (n * k)
      (map (fun sp => Post._id (sp_post sp))
           (postsWithScores toLowerCase db user now)).
Proof.
  rewrite pageNumbers_shift, map_map.
  rewrite <- windows_concat. f_equal.
  apply map_ext. intros i. apply feed_page_ids.
Qed.

End PageFacts.


Lemma StronglySorted_split (A : Type) (R1 : A -> A -> Prop) (n : nat)
    (l : list A) (c q : A) :
  StronglySorted R1 l ->
  In c (firstn n l) -> In q (skipn n l) -> R1 c q.
Proof.
  intros Hs. revert n.
  induction Hs as [| x l Hl IH Hx]; intros [| n]; simpl; try tauto.
  intros [<- | Hc] Hq.
  - rewrite Forall_forall in Hx. apply Hx. now apply In_skipn in Hq.
  - now apply (IH n).
Qed.

(** ** Pagination *)

(** Pagination at one clock reading: every page is cut from the same
    ranking. *)
Lemma pagination_frozen_clock (toLowerCase : string -> string) (db : DB)
    (user : ObjectId) (now k : Z) :
  NoDup (map Post._id (db_posts db)) ->
  (List.length (activePosts db) <= batchLimit)%nat ->
  1 <= k <= 50 ->
  let m := Z.of_nat (List.length (activePosts db)) in
  let n := Z.to_nat (ceil_div m k) in
  let pageOf := fun p => getPersonalizedFeed toLowerCase db user p k now in
  let visited :=
    List.concat (map (fun p => feedIds (pageOf p)) (pageNumbers n)) in
  Permutation visited (map Post._id (activePosts db))
  /\ (forall x, In x (activePosts db) ->
        count_occ Nat.eq_dec visited (Post._id x) = 1%nat)
  /\ (forall p, 1 <= p < Z.of_nat n -> hasMore (pageOf p) = true)
  /\ (forall p, 1 <= p -> Z.of_nat n <= p -> hasMore (pageOf p) = false)
  /\ (forall p, Z.of_nat n < p ->
        posts (pageOf p) = [] /\ hasMore (pageOf p) = false).
Proof.
  intros Hnd Hm Hk m n pageOf visited.
  assert (Hlen : List.length (findActiveNewest (db_posts db))
                 = List.length (activePosts db)).
  { rewrite findActiveNewest_length. unfold activePosts in *. lia. }
  assert (Hn : Z.of_nat n = ceil_div m k).
  { unfold n. apply Z2Nat.id. apply ceil_div_nonneg; lia. }
  assert (Hcover : m <= Z.of_nat n * k)
    by (rewrite Hn; apply ceil_div_covers; lia).
  assert (Hlast : (Z.of_nat n - 1) * k < m).
  { rewrite Hn. unfold ceil_div.
    pose proof (Z.div_mod (m + k - 1) k).
    pose proof (Z.mod_pos_bound (m + k - 1) k). lia. }
  assert (Hvisited :
    visited = map (fun sp => Post._id (sp_post sp))
                  (postsWithScores toLowerCase db user now)).
  { unfold visited, pageOf.
    replace k with (Z.of_nat (Z.to_nat k)) by lia.
    rewrite pages_concat. apply firstn_all2.
    rewrite length_map, postsWithScores_length, Hlen. nia. }
  assert (Hperm : Permutation visited (map Post._id (activePosts db))).
  { rewrite Hvisited.
    rewrite <- (map_map sp_post Post._id).
    apply Permutation_map.
    rewrite postsWithScores_perm. now apply findActiveNewest_all. }
  split; [exact Hperm |].
  split.
  { intros x Hx.
    rewrite (Permutation_count_occ Nat.eq_dec) in Hperm. rewrite Hperm.
    apply NoDup_count_occ'.
    - unfold activePosts. now apply NoDup_map_filter.
    - now apply in_map. }
  assert (HlenZ : Z.of_nat (List.length (findActiveNewest (db_posts db)))
                  = m) by (unfold m; now rewrite Hlen).
  clear Hperm Hvisited Hnd Hm Hlen. clearbody m n. clear visited.
  split.
  { intros p Hp. unfold pageOf. rewrite feed_hasMore, HlenZ.
    apply Z.ltb_lt.
    assert (p * k <= (Z.of_nat n - 1) * k)
      by (apply Z.mul_le_mono_nonneg_r; lia).
    lia. }
  assert (Hpast : forall p, Z.of_nat n <= p -> m <= (p - 1) * k + k).
  { intros p Hp.
    assert (Z.of_nat n * k <= p * k)
      by (apply Z.mul_le_mono_nonneg_r; lia).
    lia. }
  split.
  { intros p Hp1 Hp. unfold pageOf. rewrite feed_hasMore, HlenZ.
    apply Z.ltb_ge. now apply Hpast. }
  intros p Hp. split.
  - unfold pageOf.
    apply (feed_page_past_end toLowerCase db user now p k); [lia | lia |].
    rewrite HlenZ.
    assert (Z.of_nat n * k <= (p - 1) * k)
      by (apply Z.mul_le_mono_nonneg_r; lia).
    lia.
  - unfold pageOf. rewrite feed_hasMore, HlenZ.
    apply Z.ltb_ge. apply Hpast. lia.
Qed.

(** The clock enters a ranking pass through the ages in whole hours
    only. *)
Lemma postsWithScores_same_ages (toLowerCase : string -> string) (db : DB)
    (user : ObjectId) (now1 now2 : Z) :
  (forall post, In post (activePosts db) ->
     Post.hoursSinceCreation now1 post = Post.hoursSinceCreation now2 post) ->
  postsWithScores toLowerCase db user now1
  = postsWithScores toLowerCase db user now2.
Proof.
  intros Hages. unfold postsWithScores. f_equal.
  apply map_ext_in. intros post Hpost.
  apply findActiveNewest_active in Hpost.
  assert (Hact : In post (activePosts db))
    by (unfold activePosts; now apply filter_In).
  unfold calculateRankingScore. now rewrite (Hages post Hact).
Qed.

Lemma getPersonalizedFeed_same_ages (toLowerCase : string -> string)
    (db : DB) (user : ObjectId) (page limit now1 now2 : Z) :
  (forall post, In post (activePosts db) ->
     Post.hoursSinceCreation now1 post = Post.hoursSinceCreation now2 post) ->
  getPersonalizedFeed toLowerCase db user page limit now1
  = getPersonalizedFeed toLowerCase db user page limit now2.
Proof.
  intros Hages. unfold getPersonalizedFeed.
  now rewrite (postsWithScores_same_ages toLowerCase db user now1 now2 Hages).
Qed.

Lemma In_pageNumbers (n : nat) (p : Z) :
  In p (pageNumbers n) -> 1 <= p <= Z.of_nat n.
Proof.
  unfold pageNumbers. intros H. apply in_map_iff in H.
  destruct H as [i [<- Hi]]. apply in_seq in Hi. lia.
Qed.

(** C2, as the code has it: every request ranks afresh, at the clock
    reading of that request ([clock p] for page [p]).  For a store whose
    active posts are distinct and fit the batch bound, and a page size
    [k] between 1 and 50: if at the clock readings of the pages 1 to
    ⌈m/k⌉ every active post has the age in whole hours that it has at the
    first request, these pages visit the [m] active posts, each exactly
    once.  At any clock readings, the pages before the last report
    [hasMore = true], the last page and every page after it report
    [hasMore = false], and every page after the last is empty. *)
Theorem pagination_complete (toLowerCase : string -> string) (db : DB)
    (user : ObjectId) (clock : Z -> Z) (k : Z) :
  let m := Z.of_nat (List.length (activePosts db)) in
  let n := Z.to_nat (ceil_div m k) in
  let pageOf :=
    fun p => getPersonalizedFeed toLowerCase db user p k (clock p) in
  let visited :=
    List.concat (map (fun p => feedIds (pageOf p)) (pageNumbers n)) in
  NoDup (map Post._id (db_posts db)) ->
  (List.length (activePosts db) <= batchLimit)%nat ->
  1 <= k <= 50 ->
  (forall p post, 1 <= p <= Z.of_nat n -> In post (activePosts db) ->
     Post.hoursSinceCreation (clock p) post
     = Post.hoursSinceCreation (clock 1) post) ->
  Permutation visited (map Post._id (activePosts db))
  /\ (forall x, In x (activePosts db) ->
        count_occ Nat.eq_dec visited (Post._id x) = 1%nat)
  /\ (forall p, 1 <= p < Z.of_nat n -> hasMore (pageOf p) = true)
  /\ (forall p, 1 <= p -> Z.of_nat n <= p -> hasMore (pageOf p) = false)
  /\ (forall p, Z.of_nat n < p ->
        posts (pageOf p) = [] /\ hasMore (pageOf p) = false).
Proof.
  intros m n pageOf visited Hnd Hm Hk Hages.
  destruct (pagination_frozen_clock toLowerCase db user (clock 1) k
              Hnd Hm Hk) as (Hperm & Hcount & Hmore & Hlast & Hpast).
  fold m in Hperm, Hcount, Hmore, Hlast, Hpast.
  fold n in Hperm, Hcount, Hmore, Hlast, Hpast.
  assert (Hvisited :
    visited
    = List.concat
        (map (fun p => feedIds (getPersonalizedFeed toLowerCase db user
                                  p k (clock 1)))
             (pageNumbers n))).
  { unfold visited, pageOf. f_equal. apply map_ext_in. intros p Hp.
    apply In_pageNumbers in Hp. f_equal.
    apply getPersonalizedFeed_same_ages. intros post Hpost.
    now apply Hages. }
  assert (Hflag : forall p,
    hasMore (pageOf p)
    = hasMore (getPersonalizedFeed toLowerCase db user p k (clock 1))).
  { intros p. unfold pageOf. now rewrite !feed_hasMore. }
  rewrite Hvisited.
  split; [exact Hperm |]. split; [exact Hcount |].
  split; [intros p Hp; rewrite Hflag; now apply Hmore |].
  split; [intros p Hp1 Hp; rewrite Hflag; now apply Hlast |].
  intros p Hp. split; [| rewrite Hflag; now apply Hpast].
  assert (Hn : Z.of_nat n = ceil_div m k).
  { unfold n. apply Z2Nat.id. apply ceil_div_nonneg; lia. }
  assert (Hcover : m <= Z.of_nat n * k)
    by (rewrite Hn; apply ceil_div_covers; lia).
  unfold pageOf.
  apply (feed_page_past_end toLowerCase db user (clock p) p k);
    [lia | lia |].
  rewrite findActiveNewest_length.
  assert (Z.of_nat n * k <= (p - 1) * k)
    by (apply Z.mul_le_mono_nonneg_r; lia).
  unfold m in Hcover. unfold activePosts in Hcover. lia.
Qed.

Lemma pagination_complete_witness :
  let pageOf :=
    fun p => getPersonalizedFeed asciiToLowerCase sampleDB 7%nat p 2
               (p * 60000) in
  Permutation
    (List.concat (map (fun p => feedIds (pageOf p)) (pageNumbers 3)))
    (map Post._id (activePosts sampleDB))
  /\ hasMore (pageOf 3) = false
  /\ posts (pageOf 4) = [].
Proof.
  intros pageOf.
  assert (Hnd : NoDup (map Post._id (db_posts sampleDB))).
  { simpl. repeat constructor; simpl; intuition discriminate. }
  assert (Hlen : (List.length (activePosts sampleDB) <= batchLimit)%nat).
  { apply Nat.leb_le. vm_compute. reflexivity. }
  assert (Hk : 1 <= 2 <= 50) by lia.
  assert (Hages : forall p post,
    1 <= p <= Z.of_nat (Z.to_nat
               (ceil_div (Z.of_nat (List.length (activePosts sampleDB))) 2)) ->
    In post (activePosts sampleDB) ->
    Post.hoursSinceCreation (p * 60000) post
    = Post.hoursSinceCreation (1 * 60000) post).
  { intros p post Hp Hpost.
    change (Z.of_nat (Z.to_nat
              (ceil_div (Z.of_nat (List.length (activePosts sampleDB))) 2)))
      with 3 in Hp.
    unfold Post.hoursSinceCreation. simpl in Hpost.
    destruct Hpost as [<- | [<- | [<- | [<- | [<- | []]]]]];
      cbn [Post.createdAt samplePost];
      rewrite !Z.div_small by lia; reflexivity. }
  destruct (pagination_complete asciiToLowerCase sampleDB 7%nat
              (fun p => p * 60000) 2 Hnd Hlen Hk Hages)
    as (Hperm & _ & _ & Hlast & Hpast).
  split; [exact Hperm |]. split.
  - apply Hlast; vm_compute; discriminate.
  - apply Hpast. vm_compute. reflexivity.
Defined.

Lemma popularity_no_likes (maxLikes : Z) :
  calculatePopularityScore 0 maxLikes = 0%R.
Proof.
  unfold calculatePopularityScore.
  destruct (maxLikes =? 0); [reflexivity |].
  replace (0 + 1)%R with 1%R by lra. rewrite ln_1.
  unfold Rdiv. now rewrite !Rmult_0_l.
Qed.

Lemma popularity_one_of_seven : calculatePopularityScore 1 7 = 0.1%R.
Proof.
  unfold calculatePopularityScore, popularityWeight. cbn [Z.eqb].
  replace (7 + 1)%R with (2 ^ 3)%R by lra.
  replace (1 + 1)%R with 2%R by lra.
  rewrite ln_pow by lra.
  assert (H : (0 < ln 2)%R) by (apply ln_pos; lra).
  simpl INR.
  replace (ln 2 / ((1 + 1 + 1) * ln 2))%R with (/ 3)%R by (field; lra).
  lra.
Qed.

(** The ranking pass on the drifting store: two candidates, the younger
    post 2 first, then the sort. *)
Lemma drift_ranking (now : Z) :
  postsWithScores asciiToLowerCase driftDB 9%nat now
  = (if compare_after
          (mkScored (Post.mk 2%nat 7%nat [] 0 0 0 0 true 1800000 0%Q)
             (calculateRankingScore asciiToLowerCase now
                (Post.mk 2%nat 7%nat [] 0 0 0 0 true 1800000 0%Q) [] 7))
          (mkScored (Post.mk 1%nat 7%nat [] 1 0 0 0 true 0 1%Q)
             (calculateRankingScore asciiToLowerCase now
                (Post.mk 1%nat 7%nat [] 1 0 0 0 true 0 1%Q) [] 7))
     then [mkScored (Post.mk 1%nat 7%nat [] 1 0 0 0 true 0 1%Q)
             (calculateRankingScore asciiToLowerCase now
                (Post.mk 1%nat 7%nat [] 1 0 0 0 true 0 1%Q) [] 7);
           mkScored (Post.mk 2%nat 7%nat [] 0 0 0 0 true 1800000 0%Q)
             (calculateRankingScore asciiToLowerCase now
                (Post.mk 2%nat 7%nat [] 0 0 0 0 true 1800000 0%Q) [] 7)]
     else [mkScored (Post.mk 2%nat 7%nat [] 0 0 0 0 true 1800000 0%Q)
             (calculateRankingScore asciiToLowerCase now
                (Post.mk 2%nat 7%nat [] 0 0 0 0 true 1800000 0%Q) [] 7);
           mkScored (Post.mk 1%nat 7%nat [] 1 0 0 0 true 0 1%Q)
             (calculateRankingScore asciiToLowerCase now
                (Post.mk 1%nat 7%nat [] 1 0 0 0 true 0 1%Q) [] 7)]).
Proof.
  unfold postsWithScores.
  change (getUserLikedTags asciiToLowerCase driftDB 9%nat)
    with (@nil string).
  change (getMaxLikes (db_posts driftDB)) with 7.
  change (findActiveNewest (db_posts driftDB))
    with [Post.mk 2%nat 7%nat [] 0 0 0 0 true 1800000 0%Q;
          Post.mk 1%nat 7%nat [] 1 0 0 0 true 0 1%Q].
  reflexivity.
Qed.

Lemma drift_scores (now h1 h2 : Z) :
  Post.hoursSinceCreation now (Post.mk 1%nat 7%nat [] 1 0 0 0 true 0 1%Q)
  = h1 ->
  Post.hoursSinceCreation now
    (Post.mk 2%nat 7%nat [] 0 0 0 0 true 1800000 0%Q) = h2 ->
  calculateRankingScore asciiToLowerCase now
    (Post.mk 1%nat 7%nat [] 1 0 0 0 true 0 1%Q) [] 7
  = (calculateRecencyScore h1 + 0.1)%R
  /\ calculateRankingScore asciiToLowerCase now
       (Post.mk 2%nat 7%nat [] 0 0 0 0 true 1800000 0%Q) [] 7
     = calculateRecencyScore h2.
Proof.
  intros H1 H2. unfold calculateRankingScore. rewrite H1, H2.
  cbn [Post.tags Post.likes].
  rewrite popularity_one_of_seven, popularity_no_likes.
  unfold calculateTagScore. simpl. split; lra.
Qed.

(** C2 fails as stated: on a static store of two distinct active posts,
    with page size 1, the first page requested at 4200000 ms and the
    second at 5400000 ms both serve post 2, the second page is the last
    ([hasMore = false]), and post 1 is served on neither.  Between the
    two requests post 2 turns one hour old and its score falls from 0.3
    to 0.15, below the 0.25 of post 1. *)
Lemma pages_drift_with_clock :
  map Post._id (activePosts driftDB) = [1; 2]%nat
  /\ NoDup (map Post._id (db_posts driftDB))
  /\ feedIds (getPersonalizedFeed asciiToLowerCase driftDB 9%nat 1 1 4200000)
     = [2%nat]
  /\ feedIds (getPersonalizedFeed asciiToLowerCase driftDB 9%nat 2 1 5400000)
     = [2%nat]
  /\ hasMore (getPersonalizedFeed asciiToLowerCase driftDB 9%nat 2 1 5400000)
     = false.
Proof.
  split; [reflexivity |].
  split; [simpl; repeat constructor; simpl; intuition discriminate |].
  split; [| split].
  - change 1 with (Z.of_nat 1) at 2. change 1 with (Z.of_nat 1) at 1.
    rewrite (feed_page_ids asciiToLowerCase driftDB 9%nat 4200000 0 1).
    rewrite drift_ranking.
    destruct (drift_scores 4200000 1 0 eq_refl eq_refl) as [S1 S2].
    rewrite S1, S2.
    match goal with
    | |- context [if ?c then _ else _] => destruct c eqn:E
    end; [| reflexivity].
    apply compare_after_true in E. cbn [rankingScore] in E.
    unfold calculateRecencyScore, recencyWeight in E. lra.
  - change 2 with (Z.of_nat 2). change 1 with (Z.of_nat 1).
    rewrite (feed_page_ids asciiToLowerCase driftDB 9%nat 5400000 1 1).
    rewrite drift_ranking.
    destruct (drift_scores 5400000 1 1 eq_refl eq_refl) as [S1 S2].
    rewrite S1, S2.
    match goal with
    | |- context [if ?c then _ else _] => destruct c eqn:E
    end; [reflexivity |].
    apply compare_after_false in E. cbn [rankingScore] in E.
    unfold calculateRecencyScore, recencyWeight in E. lra.
  - rewrite feed_hasMore. reflexivity.
Qed.

(** ** The batch bound *)



(** ** The feed route *)

Lemma or_default_spec (x : option Z) (d : Z) :
  (x = None -> or_default x d = d)
  /\ (x = Some 0 -> or_default x d = d)
  /\ (forall v, x = Some v -> v <> 0 -> or_default x d = v).
Proof.
  split; [now intros -> |]. split; [now intros -> |].
  intros v -> Hv. destruct v; [congruence | reflexivity | reflexivity].
Qed.

(** What the range check of the feed route does with a page size that
    parses to a number other than 0, for a page parameter that is absent:
    inside 1..50 the request is served with that size, outside it is
    refused with status 400. *)
Lemma getFeed_page_size_check (toLowerCase : string -> string) (db : DB)
    (user : ObjectId) (query_limit : option string) (v now : Z) :
  parseInt query_limit = Some v -> v <> 0 ->
  (1 <= v <= 50 ->
     getFeed toLowerCase db user None query_limit now
     = Json 200 (getPersonalizedFeed toLowerCase db user 1 v now))
  /\ (v < 1 \/ 50 < v ->
        getFeed toLowerCase db user None query_limit now
        = Error 400 "Invalid pagination parameters").
Proof.
  intros Hparse Hv. unfold getFeed. rewrite Hparse.
  rewrite (proj2 (proj2 (or_default_spec (Some v) 10)) v eq_refl Hv).
  change (or_default (parseInt None) 1) with 1. cbn [Z.ltb Z.compare orb].
  split; intros H.
  - assert (E1 : (v <? 1) = false) by (apply Z.ltb_ge; lia).
    assert (E2 : (v >? 50) = false) by (rewrite Z.gtb_ltb; apply Z.ltb_ge; lia).
    now rewrite E1, E2.
  - destruct (v <? 1) eqn:E1; [reflexivity |].
    apply Z.ltb_ge in E1.
    assert (E2 : (v >? 50) = true) by (rewrite Z.gtb_ltb; apply Z.ltb_lt; lia).
    now rewrite E2.
Qed.

(** C8 fails on the code: a requested page size of 0 is outside 1..50,
    but [parseInt("0") || 10] replaces it by the default before the
    range check, and the request is served with ten items per page. *)
Theorem page_size_zero_served :
  parseInt (Some "0"%string) = Some 0
  /\ getFeed asciiToLowerCase sampleDB 7%nat None (Some "0"%string) 0
     = Json 200 (getPersonalizedFeed asciiToLowerCase sampleDB 7%nat 1 10 0).
Proof. split; reflexivity. Qed.

(** C7, as the code has it: the position in the feed is a page number
    read by [parseInt].  A token that does not parse is answered exactly
    as a request without token; a request without token and with a valid
    page size is served page 1; a token that parses to a negative number
    is refused with status 400. *)
Theorem unparseable_page_restarts (toLowerCase : string -> string)
    (db : DB) (user : ObjectId) (token : string)
    (query_limit : option string) (now : Z) :
  (parseInt (Some token) = None ->
     getFeed toLowerCase db user (Some token) query_limit now
     = getFeed toLowerCase db user None query_limit now)
  /\ (1 <= or_default (parseInt query_limit) 10 <= 50 ->
        getFeed toLowerCase db user None query_limit now
        = Json 200 (getPersonalizedFeed toLowerCase db user 1
                      (or_default (parseInt query_limit) 10) now))
  /\ (forall v, parseInt (Some token) = Some v -> v < 0 ->
        getFeed toLowerCase db user (Some token) query_limit now
        = Error 400 "Invalid pagination parameters").
Proof.
  split; [| split].
  - intros Hnan. unfold getFeed. now rewrite Hnan.
  - intros [Hlo Hhi]. unfold getFeed.
    change (or_default (parseInt None) 1) with 1.
    set (limit := or_default (parseInt query_limit) 10) in *.
    assert (E1 : (limit <? 1) = false) by (apply Z.ltb_ge; lia).
    assert (E2 : (limit >? 50) = false)
      by (rewrite Z.gtb_ltb; apply Z.ltb_ge; lia).
    now rewrite E1, E2.
  - intros v Hparse Hv. unfold getFeed. rewrite Hparse.
    rewrite (proj2 (proj2 (or_default_spec (Some v) 1)) v eq_refl)
      by lia.
    assert (E : (v <? 1) = true) by (apply Z.ltb_lt; lia).
    now rewrite E.
Qed.

Lemma unparseable_page_restarts_witness :
  getFeed asciiToLowerCase sampleDB 7%nat (Some "abc"%string) None 0
  = Json 200 (getPersonalizedFeed asciiToLowerCase sampleDB 7%nat 1 10 0)
  /\ getFeed asciiToLowerCase sampleDB 7%nat (Some "-3"%string) None 0
     = Error 400 "Invalid pagination parameters".
Proof.
  split.
  - destruct (unparseable_page_restarts asciiToLowerCase sampleDB 7%nat
                "abc" None 0) as (Hsame & Hfirst & _).
    rewrite Hsame by reflexivity.
    apply Hfirst. vm_compute. split; discriminate.
  - destruct (unparseable_page_restarts asciiToLowerCase sampleDB 7%nat
                "-3" None 0) as (_ & _ & Hneg).
    apply (Hneg (-3)); reflexivity.
Defined.

(** C7 fails as stated: the token "abc" does not parse, yet the request
    is answered with status 200 and the first page; the tampered token
    "2abc" is read as page 2.  Neither request fails. *)
Lemma malformed_token_accepted :
  parseInt (Some "abc"%string) = None
  /\ getFeed asciiToLowerCase sampleDB 7%nat (Some "abc"%string) None 0
     = Json 200 (getPersonalizedFeed asciiToLowerCase sampleDB 7%nat 1 10 0)
  /\ getFeed asciiToLowerCase sampleDB 7%nat (Some "2abc"%string) None 0
     = Json 200 (getPersonalizedFeed asciiToLowerCase sampleDB 7%nat 2 10 0)
  /\ (forall status error,
        getFeed asciiToLowerCase sampleDB 7%nat (Some "abc"%string) None 0
        <> Error status error).
Proof.
  repeat split; try reflexivity.
  intros status error H. discriminate H.
Qed.

(** ** The like and unlike routes *)

Lemma findById_id (posts : list Post.t) (id : ObjectId) (p : Post.t) :
  findById posts id = Some p -> Post._id p = id.
Proof.
  unfold findById. intros H. apply find_some in H.
  now apply Nat.eqb_eq.
Qed.

Lemma findById_save (posts : list Post.t) (id : ObjectId)
    (p p' : Post.t) :
  findById posts id = Some p ->
  Post._id p' = Post._id p ->
  findById (save p' posts) id = Some p'.
Proof.
  intros Hfind Hid.
  assert (Hp : Post._id p = id) by now apply findById_id in Hfind.
  unfold findById in *.
  induction posts as [| q rest IH]; simpl in *; [discriminate |].
  destruct (Post._id q =? id)%nat eqn:Eq.
  - apply Nat.eqb_eq in Eq.
    assert (E : (Post._id q =? Post._id p')%nat = true)
      by (apply Nat.eqb_eq; congruence).
    rewrite E. simpl.
    assert (E' : (Post._id p' =? id)%nat = true)
      by (apply Nat.eqb_eq; congruence).
    now rewrite E'.
  - assert (E : (Post._id q =? Post._id p')%nat = false).
    { apply Nat.eqb_neq. apply Nat.eqb_neq in Eq. congruence. }
    rewrite E. simpl. rewrite Eq. now apply IH.
Qed.

Lemma incrementLikes_likes (p : Post.t) :
  Post._id (Post.incrementLikes p) = Post._id p
  /\ Post.likes (Post.incrementLikes p) = Post.likes p + 1.
Proof. split; reflexivity. Qed.

Lemma decrementLikes_likes (p : Post.t) :
  Post._id (Post.decrementLikes p) = Post._id p
  /\ Post.likes (Post.decrementLikes p)
     = (if Post.likes p >? 0 then Post.likes p - 1 else Post.likes p).
Proof.
  unfold Post.decrementLikes.
  destruct (Post.likes p >? 0); split; reflexivity.
Qed.

(** C9: the like endpoint answers a like of an active post that the
    user has not liked yet with status 200 and the stored count after the
    increment plus one; the unlike endpoint answers an unlike of a post
    the user has liked with status 200 and max(0, stored count after the
    decrement minus one).  Every successful answer is of this kind: one
    too many after every like, one too few after an unlike of a post that
    had at least two likes. *)
Theorem like_count_misreported (db : DB) (user postId : ObjectId) :
  (forall db' status body,
     likePost db user postId = (db', Json status body) ->
     exists before stored,
       findById (db_posts db) postId = Some before
       /\ findById (db_posts db') postId = Some stored
       /\ Post.likes stored = Post.likes before + 1
       /\ reported_likes body = Post.likes stored + 1
       /\ reported_likes body <> Post.likes stored)
  /\ (forall db' status body,
        unlikePost db user postId = (db', Json status body) ->
        exists before stored,
          findById (db_posts db) postId = Some before
          /\ findById (db_posts db') postId = Some stored
          /\ Post.likes stored
             = (if Post.likes before >? 0 then Post.likes before - 1
                else Post.likes before)
          /\ reported_likes body = Z.max 0 (Post.likes stored - 1)
          /\ (2 <= Post.likes before ->
              reported_likes body = Post.likes stored - 1
              /\ reported_likes body <> Post.likes stored))
  /\ (forall before,
        findById (db_posts db) postId = Some before ->
        Post.isActive before = true ->
        findLike (db_likes db) user postId = None ->
        exists db' body stored,
          likePost db user postId = (db', Json 200 body)
          /\ findById (db_posts db') postId = Some stored
          /\ Post.likes stored = Post.likes before + 1
          /\ reported_likes body = Post.likes stored + 1
          /\ reported_likes body <> Post.likes stored)
  /\ (forall before,
        findById (db_posts db) postId = Some before ->
        findLike (db_likes db) user postId <> None ->
        exists db' body stored,
          unlikePost db user postId = (db', Json 200 body)
          /\ findById (db_posts db') postId = Some stored
          /\ Post.likes stored
             = (if Post.likes before >? 0 then Post.likes before - 1
                else Post.likes before)
          /\ reported_likes body = Z.max 0 (Post.likes stored - 1)
          /\ (2 <= Post.likes before ->
              reported_likes body = Post.likes stored - 1
              /\ reported_likes body <> Post.likes stored)).
Proof.
  assert (Hunder : forall post, 2 <= Post.likes post ->
    Z.max 0 (Post.likes (Post.decrementLikes post) - 1)
    = Post.likes (Post.decrementLikes post) - 1
    /\ Z.max 0 (Post.likes (Post.decrementLikes post) - 1)
       <> Post.likes (Post.decrementLikes post)).
  { intros post Htwo.
    destruct (decrementLikes_likes post) as [_ Hlikes]. rewrite Hlikes.
    assert (E : (Post.likes post >? 0) = true)
      by (rewrite Z.gtb_ltb; apply Z.ltb_lt; lia).
    rewrite E. lia. }
  split; [| split; [| split]].
  - intros db' status body H. unfold likePost in H.
    destruct (findById (db_posts db) postId) as [post |] eqn:Hfind;
      [| discriminate].
    destruct (negb (Post.isActive post)); [discriminate |].
    destruct (findLike (db_likes db) user postId); [discriminate |].
    inversion H; subst; clear H.
    exists post, (Post.incrementLikes post). cbn [db_posts reported_likes].
    destruct (incrementLikes_likes post) as [Hid Hlikes].
    split; [reflexivity |].
    split; [now apply findById_save with post |].
    split; [exact Hlikes |].
    split; [reflexivity | lia].
  - intros db' status body H. unfold unlikePost in H.
    destruct (findById (db_posts db) postId) as [post |] eqn:Hfind;
      [| discriminate].
    destruct (findLike (db_likes db) user postId); [| discriminate].
    inversion H; subst; clear H.
    exists post, (Post.decrementLikes post). cbn [db_posts reported_likes].
    destruct (decrementLikes_likes post) as [Hid Hlikes].
    split; [reflexivity |].
    split; [now apply findById_save with post |].
    split; [exact Hlikes |].
    split; [reflexivity | apply Hunder].
  - intros post Hfind Hact Hnone. unfold likePost.
    rewrite Hfind, Hact, Hnone. cbn [negb].
    destruct (incrementLikes_likes post) as [Hid Hlikes].
    eexists. eexists. exists (Post.incrementLikes post).
    split; [reflexivity |]. cbn [db_posts reported_likes].
    split; [now apply findById_save with post |].
    split; [exact Hlikes |].
    split; [reflexivity | lia].
  - intros post Hfind Hsome. unfold unlikePost. rewrite Hfind.
    destruct (findLike (db_likes db) user postId); [| congruence].
    destruct (decrementLikes_likes post) as [Hid Hlikes].
    eexists. eexists. exists (Post.decrementLikes post).
    split; [reflexivity |]. cbn [db_posts reported_likes].
    split; [now apply findById_save with post |].
    split; [exact Hlikes |].
    split; [reflexivity | apply Hunder].
Qed.

Lemma like_count_misreported_witness :
  (exists db' body stored,
     likePost likedDB 20%nat 1%nat = (db', Json 200 body)
     /\ findById (db_posts db') 1%nat = Some stored
     /\ Post.likes stored = 5 + 1
     /\ reported_likes body = Post.likes stored + 1
     /\ reported_likes body <> Post.likes stored)
  /\ (exists db' body stored,
        unlikePost likedDB 9%nat 1%nat = (db', Json 200 body)
        /\ findById (db_posts db') 1%nat = Some stored
        /\ Post.likes stored = 5 - 1
        /\ reported_likes body = Z.max 0 (Post.likes stored - 1)
        /\ reported_likes body = Post.likes stored - 1
        /\ reported_likes body <> Post.likes stored).
Proof.
  split.
  - apply (proj1 (proj2 (proj2
             (like_count_misreported likedDB 20%nat 1%nat)))
             (samplePost 1 5 10)); reflexivity.
  - destruct (proj2 (proj2 (proj2
                (like_count_misreported likedDB 9%nat 1%nat)))
                (samplePost 1 5 10) eq_refl
                ltac:(discriminate))
      as (db' & body & stored & Hrun & Hfind & Hlikes & Hrep & Hunder).
    exists db', body, stored.
    split; [exact Hrun |]. split; [exact Hfind |].
    split; [exact Hlikes |]. split; [exact Hrep |].
    apply Hunder. simpl. lia.
Defined.

Example like_then_unlike :
  let db1 := fst (likePost sampleDB 9%nat 3%nat) in
  option_map Post.likes (findById (db_posts db1) 3%nat) = Some 101
  /\ snd (unlikePost db1 9%nat 3%nat)
     = Json 200 (mkLikeBody "Post unliked successfully" 99)
  /\ option_map Post.likes
       (findById (db_posts (fst (unlikePost db1 9%nat 3%nat))) 3%nat)
     = Some 100.
Proof. repeat split; reflexivity. Qed.

(** * Further properties of the code *)

(** ** The scorer *)

(** X1: the recency term is the full weight 0.3 for a post of age 0 and
    decreases strictly as the age in hours grows. *)
Theorem recency_strictly_decreasing (h1 h2 : Z) :
  0 <= h1 < h2 ->
  (calculateRecencyScore h2 < calculateRecencyScore h1
   /\ calculateRecencyScore h1 <= calculateRecencyScore 0
   /\ calculateRecencyScore 0 = 0.3)%R.
Proof.
  intros [H1 H2]. unfold calculateRecencyScore, recencyWeight.
  apply IZR_le in H1. apply IZR_lt in H2.
  assert (Hinv : (/ (IZR h2 + 1) < / (IZR h1 + 1))%R)
    by (apply Rinv_lt_contravar; nra).
  assert (Hone : (/ (IZR h1 + 1) <= 1)%R)
    by (rewrite <- Rinv_1; apply Rinv_le_contravar; lra).
  replace (0 + 1)%R with 1%R by lra.
  unfold Rdiv. rewrite Rinv_1. split; [| split]; lra.
Qed.

Lemma recency_strictly_decreasing_witness :
  (calculateRecencyScore 5 < calculateRecencyScore 2)%R.
Proof.
  apply (recency_strictly_decreasing 2 5). lia.
Defined.

(** X2: for a positive normalization maximum, the popularity term is 0
    for a post without likes, the full weight 0.3 for a post with the
    maximum, and strictly larger for a post with more likes. *)
Theorem popularity_strictly_increasing (l1 l2 maxLikes : Z) :
  0 < maxLikes -> 0 <= l1 < l2 ->
  (calculatePopularityScore l1 maxLikes
   < calculatePopularityScore l2 maxLikes
   /\ calculatePopularityScore 0 maxLikes = 0
   /\ calculatePopularityScore maxLikes maxLikes = 0.3)%R.
Proof.
  intros Hm [H1 H2]. unfold calculatePopularityScore, popularityWeight.
  assert (Hz : (maxLikes =? 0) = false) by (apply Z.eqb_neq; lia).
  rewrite Hz.
  apply IZR_lt in Hm. apply IZR_le in H1. apply IZR_lt in H2.
  assert (Hd : (0 < ln (IZR maxLikes + 1))%R) by (apply ln_pos; lra).
  assert (Hlt : (ln (IZR l1 + 1) < ln (IZR l2 + 1))%R)
    by (apply ln_increasing; lra).
  split; [| split].
  - apply Rmult_lt_compat_r; [lra |].
    apply Rmult_lt_compat_r; [now apply Rinv_0_lt_compat | assumption].
  - replace (0 + 1)%R with 1%R by lra. rewrite ln_1. lra.
  - unfold Rdiv. rewrite Rinv_r; lra.
Qed.

Lemma popularity_strictly_increasing_witness :
  (calculatePopularityScore 10 100 < calculatePopularityScore 11 100)%R.
Proof.
  apply (popularity_strictly_increasing 10 11 100); lia.
Defined.

(** ** The liked tags of a user *)

Lemma set_add_In (s : list string) (x t : string) :
  In t (set_add s x) <-> In t s \/ t = x.
Proof.
  unfold set_add. destruct (includes s x) eqn:E.
  - apply includes_In in E. split; [tauto |].
    intros [H | ->]; assumption.
  - rewrite in_app_iff. simpl. split.
    + intros [H | [<- | []]]; auto.
    + intros [H | ->]; auto.
Qed.

Lemma set_add_NoDup (s : list string) (x : string) :
  NoDup s -> NoDup (set_add s x).
Proof.
  intros H. unfold set_add. destruct (includes s x) eqn:E; [assumption |].
  apply NoDup_app; try assumption.
  - constructor; [intros [] | constructor].
  - intros a Ha [<- | []].
    apply includes_In in Ha. congruence.
Qed.

Lemma fold_set_add_In (xs s : list string) (t : string) :
  In t (fold_left set_add xs s) <-> In t s \/ In t xs.
Proof.
  revert s. induction xs as [| x xs IH]; intros s; simpl.
  - tauto.
  - rewrite IH, set_add_In. split; intros H; intuition.
Qed.

Lemma fold_set_add_NoDup (xs s : list string) :
  NoDup s -> NoDup (fold_left set_add xs s).
Proof.
  revert s. induction xs as [| x xs IH]; intros s H; simpl; auto.
  apply IH. now apply set_add_NoDup.
Qed.

Section LikedTagsFacts.

Variable toLowerCase : string -> string.

Lemma add_tags_In (tags s : list string) (t : string) :
  In t (fold_left (fun s tag => set_add s (toLowerCase tag)) tags s)
  <-> In t s \/ exists tag, In tag tags /\ t = toLowerCase tag.
Proof.
  revert s. induction tags as [| x tags IH]; intros s; simpl.
  - split; [tauto |]. intros [H | [tag [[] _]]]. exact H.
  - rewrite IH, set_add_In. split.
    + intros [[H | ->] | [tag [Hin ->]]]; eauto.
    + intros [H | [tag [[<- | Hin] ->]]]; eauto.
Qed.

Lemma add_tags_NoDup (tags s : list string) :
  NoDup s ->
  NoDup (fold_left (fun s tag => set_add s (toLowerCase tag)) tags s).
Proof.
  revert s. induction tags as [| x tags IH]; intros s H; simpl; auto.
  apply IH. now apply set_add_NoDup.
Qed.

Lemma getUserLikedTags_facts (db : DB) (user : ObjectId) :
  NoDup (getUserLikedTags toLowerCase db user)
  /\ forall t,
       In t (getUserLikedTags toLowerCase db user)
       <-> exists like post tag,
             In like (db_likes db)
             /\ Like.userId like = user
             /\ findById (db_posts db) (Like.postId like) = Some post
             /\ In tag (Post.tags post)
             /\ t = toLowerCase tag.
Proof.
  unfold getUserLikedTags.
  set (step := fun likedTags like =>
         match findById (db_posts db) (Like.postId like) with
         | Some p =>
             fold_left (fun s tag => set_add s (toLowerCase tag))
                       (Post.tags p) likedTags
         | None => likedTags
         end).
  assert (Hnd : forall likes acc,
            NoDup acc -> NoDup (fold_left step likes acc)).
  { induction likes as [| l likes IH]; intros acc H; simpl; auto.
    apply IH. unfold step.
    destruct (findById (db_posts db) (Like.postId l)); auto.
    now apply add_tags_NoDup. }
  assert (Hin : forall likes acc t,
    In t (fold_left step likes acc)
    <-> In t acc
        \/ exists like post tag,
             In like likes
             /\ findById (db_posts db) (Like.postId like) = Some post
             /\ In tag (Post.tags post) /\ t = toLowerCase tag).
  { induction likes as [| l likes IH]; intros acc t; simpl.
    - split; [tauto |]. intros [H | (like & _ & _ & [] & _)]. exact H.
    - rewrite IH. unfold step.
      destruct (findById (db_posts db) (Like.postId l)) as [p |] eqn:E.
      + rewrite add_tags_In. split.
        * intros [[H | (tag & Htag & ->)] | (like & post & tag & H1 & H2)].
          -- now left.
          -- right. exists l, p, tag. auto.
          -- right. exists like, post, tag. tauto.
        * intros [H | (like & post & tag & [<- | H1] & H2 & H3 & ->)].
          -- now left; left.
          -- left. right. exists tag. split; [| reflexivity].
             rewrite E in H2. now inversion H2.
          -- right. exists like, post, tag. auto.
      + split.
        * intros [H | (like & post & tag & H1 & H2)]; [now left |].
          right. exists like, post, tag. tauto.
        * intros [H | (like & post & tag & [<- | H1] & H2 & H3 & ->)].
          -- now left.
          -- rewrite E in H2. discriminate H2.
          -- right. exists like, post, tag. auto. }
  split; [apply Hnd; constructor |].
  intros t. rewrite Hin. split.
  - intros [[] | (like & post & tag & H1 & H2)].
    apply filter_In in H1. destruct H1 as [H1 Hu].
    apply Nat.eqb_eq in Hu. exists like, post, tag. tauto.
  - intros (like & post & tag & H1 & Hu & H2). right.
    exists like, post, tag. split; [| exact H2].
    apply filter_In. split; [assumption | now apply Nat.eqb_eq].
Qed.

End LikedTagsFacts.

(** X3: the liked tags of a user are duplicate-free, and they are exactly
    the lower-cased tags of the posts that still exist and that a like
    document of the user points to. *)
Theorem getUserLikedTags_spec (toLowerCase : string -> string) (db : DB)
    (user : ObjectId) :
  NoDup (getUserLikedTags toLowerCase db user)
  /\ forall t,
       In t (getUserLikedTags toLowerCase db user)
       <-> exists like post tag,
             In like (db_likes db)
             /\ Like.userId like = user
             /\ findById (db_posts db) (Like.postId like) = Some post
             /\ In tag (Post.tags post)
             /\ t = toLowerCase tag.
Proof. apply getUserLikedTags_facts. Qed.

(** ** Served scores *)

Lemma feed_page_ranked (toLowerCase : string -> string) (db : DB)
    (user : ObjectId) (now p k : Z) (fp : FeedPost) :
  1 <= p -> 0 <= k ->
  In fp (posts (getPersonalizedFeed toLowerCase db user p k now)) ->
  In (fp_scored fp) (postsWithScores toLowerCase db user now).
Proof.
  intros Hp Hk Hin.
  apply (in_map fp_scored) in Hin. revert Hin.
  replace p with (Z.of_nat (S (Z.to_nat (p - 1)))) by lia.
  replace k with (Z.of_nat (Z.to_nat k)) at 1 by lia.
  rewrite feed_page_scored. intros Hin.
  now apply In_firstn, In_skipn in Hin.
Qed.

(** X4: in a store whose active posts were created no later than the
    current time, carry case-normalized, deduplicated tags and a like
    count that is not negative, every score the feed serves lies in
    [0, 1]. *)
Theorem served_scores_bounded (toLowerCase : string -> string) (db : DB)
    (user : ObjectId) (now page limit : Z) :
  (forall p, In p (db_posts db) -> Post.isActive p = true ->
             Post.createdAt p <= now
             /\ normalized toLowerCase (Post.tags p)
             /\ 0 <= Post.likes p) ->
  1 <= page -> 0 <= limit ->
  forall fp,
    In fp (posts (getPersonalizedFeed toLowerCase db user page limit now)) ->
    (0 <= rankingScore (fp_scored fp) <= 1)%R.
Proof.
  intros Hinv Hpage Hlimit fp Hfp.
  apply feed_page_ranked in Hfp; try assumption.
  apply postsWithScores_score in Hfp. destruct Hfp as [Hpool ->].
  apply findActiveNewest_active in Hpool. destruct Hpool as [Hin Hact].
  destruct (Hinv _ Hin Hact) as (Hage & Htags & Hlikes).
  assert (Hmax := getMaxLikes_upper (db_posts db) _ Hin).
  assert (Ht := tag_score_range toLowerCase
                  (getUserLikedTags toLowerCase db user) _ Htags).
  assert (Hr := recency_score_range _
                  (hoursSinceCreation_nonneg now _ Hage)).
  assert (Hp := popularity_score_range (Post.likes (sp_post (fp_scored fp)))
                  (getMaxLikes (db_posts db)) (conj Hlikes Hmax)).
  unfold calculateRankingScore.
  unfold tagWeight, recencyWeight, popularityWeight in *.
  lra.
Qed.

Lemma served_scores_bounded_witness :
  Forall (fun fp => (0 <= rankingScore (fp_scored fp) <= 1)%R)
    (posts (getPersonalizedFeed asciiToLowerCase sampleDB 7%nat 1 2 100)).
Proof.
  apply Forall_forall.
  apply (served_scores_bounded asciiToLowerCase sampleDB 7%nat 100 1 2);
    try lia.
  intros p Hin _. simpl in Hin.
  destruct Hin as [<- | [<- | [<- | [<- | [<- | []]]]]];
    (split; [simpl; lia | split; [split; constructor | simpl; lia]]).
Defined.

(** ** The pages of the feed *)

Lemma StronglySorted_skipn (A : Type) (R1 : A -> A -> Prop) (n : nat)
    (l : list A) :
  StronglySorted R1 l -> StronglySorted R1 (skipn n l).
Proof.
  intros H. revert n. induction H as [| x l Hl IH Hx]; intros [| n]; simpl;
    try constructor; auto.
Qed.

Lemma In_window_prefix (A : Type) (s k : nat) (l : list A) (x : A) :
  In x (firstn k (skipn s l)) -> In x (firstn (s + k) l).
Proof.
  intros H. rewrite firstn_plus. apply in_or_app. now right.
Qed.

Lemma In_skipn_le (A : Type) (m n : nat) (l : list A) (x : A) :
  (m <= n)%nat -> In x (skipn n l) -> In x (skipn m l).
Proof.
  intros Hle H. replace n with ((n - m) + m)%nat in H by lia.
  rewrite <- skipn_skipn in H. now apply In_skipn in H.
Qed.

Section FeedPageFacts.

Variable toLowerCase : string -> string.
Variable db : DB.
Variable user : ObjectId.
Variable now : Z.

Lemma feed_page_scored_Z (p k : Z) :
  1 <= p -> 0 <= k ->
  map fp_scored (posts (getPersonalizedFeed toLowerCase db user p k now))
  = firstn (Z.to_nat k)
      (skipn (Z.to_nat ((p - 1) * k))
             (postsWithScores toLowerCase db user now)).
Proof.
  intros Hp Hk.
  replace p with (Z.of_nat (S (Z.to_nat (p - 1)))) at 1 by lia.
  replace k with (Z.of_nat (Z.to_nat k)) at 1 by lia.
  rewrite feed_page_scored. do 2 f_equal. nia.
Qed.

Lemma feed_page_size (p k : Z) :
  1 <= p -> 0 <= k ->
  Z.of_nat (List.length
              (posts (getPersonalizedFeed toLowerCase db user p k now)))
  = Z.min k
      (Z.max 0
         (total (getPersonalizedFeed toLowerCase db user p k now)
          - (p - 1) * k)).
Proof.
  intros Hp Hk.
  rewrite <- (length_map fp_scored), feed_page_scored_Z by assumption.
  rewrite length_firstn, length_skipn, feed_total.
  rewrite postsWithScores_length.
  assert (0 <= (p - 1) * k) by nia. lia.
Qed.

End FeedPageFacts.

(** X5: a feed page has exactly min(limit, items left from its start)
    posts; a page that reports [hasMore = true] is full. *)
Theorem feed_page_length (toLowerCase : string -> string) (db : DB)
    (user : ObjectId) (now page limit : Z) :
  1 <= page -> 0 <= limit ->
  let feed := getPersonalizedFeed toLowerCase db user page limit now in
  Z.of_nat (List.length (posts feed))
  = Z.min limit (Z.max 0 (total feed - (page - 1) * limit))
  /\ (hasMore feed = true -> Z.of_nat (List.length (posts feed)) = limit).
Proof.
  intros Hp Hk feed.
  assert (Hsize := feed_page_size toLowerCase db user now page limit Hp Hk).
  fold feed in Hsize. split; [exact Hsize |].
  intros Hmore. rewrite Hsize. unfold feed in *.
  rewrite feed_hasMore in Hmore. rewrite feed_total.
  apply Z.ltb_lt in Hmore. lia.
Qed.

Lemma feed_page_length_witness :
  Z.of_nat (List.length
    (posts (getPersonalizedFeed asciiToLowerCase sampleDB 7%nat 3 2 0)))
  = Z.min 2 (Z.max 0
      (total (getPersonalizedFeed asciiToLowerCase sampleDB 7%nat 3 2 0)
       - (3 - 1) * 2)).
Proof.
  apply (feed_page_length asciiToLowerCase sampleDB 7%nat 0 3 2); lia.
Defined.

(** X6: [hasMore] is true exactly when the next page has a post. *)
Theorem hasMore_iff_next_page (toLowerCase : string -> string) (db : DB)
    (user : ObjectId) (now page limit : Z) :
  1 <= page -> 1 <= limit ->
  hasMore (getPersonalizedFeed toLowerCase db user page limit now) = true
  <-> posts (getPersonalizedFeed toLowerCase db user (page + 1) limit now)
      <> [].
Proof.
  intros Hp Hk.
  assert (Hsize := feed_page_size toLowerCase db user now (page + 1) limit).
  rewrite feed_total in Hsize. rewrite feed_hasMore, Z.ltb_lt.
  replace (page + 1 - 1) with page in Hsize by lia.
  replace ((page - 1) * limit + limit) with (page * limit) by lia.
  split.
  - intros Hlt Hnil. rewrite Hnil in Hsize. simpl in Hsize.
    specialize (Hsize ltac:(lia) ltac:(lia)). lia.
  - intros Hne.
    destruct (posts (getPersonalizedFeed toLowerCase db user (page + 1)
                       limit now)) as [| fp rest]; [congruence |].
    simpl List.length in Hsize.
    specialize (Hsize ltac:(lia) ltac:(lia)). lia.
Qed.

Lemma hasMore_iff_next_page_witness :
  hasMore (getPersonalizedFeed asciiToLowerCase sampleDB 7%nat 2 2 0) = true
  <-> posts (getPersonalizedFeed asciiToLowerCase sampleDB 7%nat (2 + 1) 2 0)
      <> [].
Proof.
  apply (hasMore_iff_next_page asciiToLowerCase sampleDB 7%nat 0 2 2); lia.
Defined.

(** X7: a served post is marked as liked exactly when the store holds a
    like document of the requesting user on it. *)
Theorem feed_isLiked_spec (toLowerCase : string -> string) (db : DB)
    (user : ObjectId) (now page limit : Z) (fp : FeedPost) :
  In fp (posts (getPersonalizedFeed toLowerCase db user page limit now)) ->
  isLiked fp = true
  <-> exists l, In l (db_likes db)
                /\ Like.userId l = user
                /\ Like.postId l = Post._id (sp_post (fp_scored fp)).
Proof.
  unfold getPersonalizedFeed. cbn [posts]. intros Hin.
  apply in_map_iff in Hin. destruct Hin as [sp [<- Hsp]].
  cbn [isLiked fp_scored]. rewrite existsb_exists. split.
  - intros [id [Hid Heq]]. apply Nat.eqb_eq in Heq. subst id.
    apply in_map_iff in Hid. destruct Hid as [l [Hl Hfl]].
    apply filter_In in Hfl. destruct Hfl as [Hin Hcond].
    apply andb_true_iff in Hcond. destruct Hcond as [Hu _].
    apply Nat.eqb_eq in Hu. exists l. auto.
  - intros [l (Hin & Hu & Hp)].
    exists (Post._id (sp_post sp)). split; [| apply Nat.eqb_refl].
    apply in_map_iff. exists l. split; [assumption |].
    apply filter_In. split; [assumption |].
    apply andb_true_iff. split; [now apply Nat.eqb_eq |].
    apply existsb_exists. exists (Post._id (sp_post sp)).
    split; [| now apply Nat.eqb_eq].
    apply in_map_iff. exists sp. auto.
Qed.

Lemma feed_isLiked_spec_witness :
  let db := fst (likePost sampleDB 7%nat 5%nat) in
  Forall (fun fp =>
            isLiked fp = true
            <-> exists l, In l (db_likes db)
                          /\ Like.userId l = 7%nat
                          /\ Like.postId l = Post._id (sp_post (fp_scored fp)))
    (posts (getPersonalizedFeed asciiToLowerCase db 7%nat 1 10 0)).
Proof.
  intros db. apply Forall_forall. intros fp Hfp.
  exact (feed_isLiked_spec asciiToLowerCase db 7%nat 0 1 10 fp Hfp).
Defined.

(** X8: every post a feed page serves is an active post of the
    collection, served with the score the scorer gives it for the
    requesting user's liked tags and the collection's largest like
    count; an inactive post is never served. *)
Theorem feed_serves_active_only (toLowerCase : string -> string) (db : DB)
    (user : ObjectId) (now page limit : Z) (fp : FeedPost) :
  1 <= page -> 0 <= limit ->
  In fp (posts (getPersonalizedFeed toLowerCase db user page limit now)) ->
  In (sp_post (fp_scored fp)) (db_posts db)
  /\ Post.isActive (sp_post (fp_scored fp)) = true
  /\ rankingScore (fp_scored fp)
     = calculateRankingScore toLowerCase now (sp_post (fp_scored fp))
         (getUserLikedTags toLowerCase db user)
         (getMaxLikes (db_posts db)).
Proof.
  intros Hp Hk Hfp.
  apply feed_page_ranked in Hfp; try assumption.
  apply postsWithScores_score in Hfp. destruct Hfp as [Hpool Hscore].
  apply findActiveNewest_active in Hpool. tauto.
Qed.

Lemma feed_serves_active_only_witness :
  Forall (fun fp => Post.isActive (sp_post (fp_scored fp)) = true)
    (posts (getPersonalizedFeed asciiToLowerCase sampleDB 7%nat 1 10 0)).
Proof.
  apply Forall_forall. intros fp Hfp.
  refine (proj1 (proj2 (feed_serves_active_only asciiToLowerCase sampleDB
                          7%nat 0 1 10 fp _ _ Hfp))); lia.
Defined.

(** X9: scrolling goes down the ranking.  Each page is in rank order
    (score descending, then [createdAt] descending), and every post of a
    page ranks before every post of a later page. *)
Theorem pages_follow_ranking (toLowerCase : string -> string) (db : DB)
    (user : ObjectId) (now p q limit : Z) :
  1 <= p < q -> 0 <= limit ->
  StronglySorted ranked_before
    (map fp_scored
         (posts (getPersonalizedFeed toLowerCase db user p limit now)))
  /\ forall a b,
       In a (posts (getPersonalizedFeed toLowerCase db user p limit now)) ->
       In b (posts (getPersonalizedFeed toLowerCase db user q limit now)) ->
       ranked_before (fp_scored a) (fp_scored b).
Proof.
  intros Hpq Hk.
  assert (Hs := postsWithScores_sorted toLowerCase db user now).
  split.
  - rewrite feed_page_scored_Z by lia.
    now apply StronglySorted_firstn, StronglySorted_skipn.
  - intros a b Ha Hb.
    apply (in_map fp_scored) in Ha, Hb.
    rewrite feed_page_scored_Z in Ha, Hb by lia.
    apply In_window_prefix in Ha. apply In_firstn in Hb.
    apply (In_skipn_le _ (Z.to_nat ((p - 1) * limit) + Z.to_nat limit))
      in Hb; [| nia].
    exact (StronglySorted_split _ ranked_before _ _ _ _ Hs Ha Hb).
Qed.

Lemma pages_follow_ranking_witness :
  StronglySorted ranked_before
    (map fp_scored
         (posts (getPersonalizedFeed asciiToLowerCase sampleDB 7%nat 1 2 0))).
Proof.
  apply (pages_follow_ranking asciiToLowerCase sampleDB 7%nat 0 1 2 2); lia.
Defined.

(** X10: whatever the query string, a feed request that is served is
    answered with status 200, a page number of at least 1, a page size
    between 1 and 50, no more posts than the page size, and a total of
    at most 1000. *)
Theorem getFeed_served_bounds (toLowerCase : string -> string) (db : DB)
    (user : ObjectId) (query_page query_limit : option string) (now : Z)
    (status : nat) (feed : Feed) :
  getFeed toLowerCase db user query_page query_limit now = Json status feed ->
  status = 200%nat
  /\ 1 <= page feed
  /\ 1 <= limit feed <= 50
  /\ Z.of_nat (List.length (posts feed)) <= limit feed
  /\ 0 <= total feed <= Z.of_nat batchLimit.
Proof.
  unfold getFeed.
  set (p := or_default (parseInt query_page) 1).
  set (k := or_default (parseInt query_limit) 10).
  destruct (p <? 1) eqn:E1; [discriminate |].
  destruct (k <? 1) eqn:E2; [discriminate |].
  destruct (k >? 50) eqn:E3; [discriminate |].
  cbn [orb]. intros H. inversion H; subst; clear H.
  apply Z.ltb_ge in E1, E2. rewrite Z.gtb_ltb in E3. apply Z.ltb_ge in E3.
  assert (Hsize := feed_page_size toLowerCase db user now p k E1).
  rewrite feed_total in *.
  rewrite findActiveNewest_length in *.
  change (page (getPersonalizedFeed toLowerCase db user p k now)) with p.
  change (limit (getPersonalizedFeed toLowerCase db user p k now)) with k.
  split; [reflexivity |]. split; [exact E1 |]. split; [lia |].
  split; [rewrite Hsize by lia; lia |].
  split; [lia |]. apply inj_le. apply Nat.le_min_l.
Qed.

Lemma getFeed_served_bounds_witness :
  Z.of_nat (List.length
    (posts (getPersonalizedFeed asciiToLowerCase sampleDB 7%nat 1 10 0)))
  <= limit (getPersonalizedFeed asciiToLowerCase sampleDB 7%nat 1 10 0).
Proof.
  refine (proj1 (proj2 (proj2 (proj2
    (getFeed_served_bounds asciiToLowerCase sampleDB 7%nat
       (Some "abc"%string) None 0 200%nat
       (getPersonalizedFeed asciiToLowerCase sampleDB 7%nat 1 10 0) _))))).
  reflexivity.
Defined.

(** ** Facts about the store *)

Lemma save_ids (p : Post.t) (posts : list Post.t) :
  map Post._id (save p posts) = map Post._id posts.
Proof.
  induction posts as [| q rest IH]; simpl; [reflexivity |].
  destruct (Post._id q =? Post._id p)%nat eqn:E; simpl.
  - apply Nat.eqb_eq in E. now rewrite E.
  - now rewrite IH.
Qed.

Lemma findById_save_other (p : Post.t) (posts : list Post.t)
    (id : ObjectId) :
  id <> Post._id p ->
  findById (save p posts) id = findById posts id.
Proof.
  intros Hne. unfold findById.
  induction posts as [| q rest IH]; simpl; [reflexivity |].
  destruct (Post._id q =? Post._id p)%nat eqn:E; simpl.
  - apply Nat.eqb_eq in E.
    assert (E1 : (Post._id p =? id)%nat = false)
      by (apply Nat.eqb_neq; congruence).
    assert (E2 : (Post._id q =? id)%nat = false)
      by (apply Nat.eqb_neq; congruence).
    now rewrite E1, E2.
  - destruct (Post._id q =? id)%nat; [reflexivity | exact IH].
Qed.

Lemma save_save (p1 p2 : Post.t) (posts : list Post.t) :
  Post._id p1 = Post._id p2 ->
  save p2 (save p1 posts) = save p2 posts.
Proof.
  intros Hid. induction posts as [| q rest IH]; simpl; [reflexivity |].
  destruct (Post._id q =? Post._id p1)%nat eqn:E; simpl.
  - rewrite <- Hid, E. rewrite Hid, Nat.eqb_refl. reflexivity.
  - rewrite <- Hid, E. now rewrite IH.
Qed.

Lemma In_save (p q : Post.t) (posts : list Post.t) :
  In q (save p posts) -> q = p \/ In q posts.
Proof.
  induction posts as [| r rest IH]; simpl; [tauto |].
  destruct (Post._id r =? Post._id p)%nat; simpl.
  - intros [<- | H]; auto.
  - intros [<- | H]; auto. destruct (IH H); auto.
Qed.

(** With distinct identifiers, the documents [save] leaves in place are
    those of another identifier. *)
Lemma In_save_NoDup (p q : Post.t) (posts : list Post.t) :
  NoDup (map Post._id posts) ->
  In q (save p posts) ->
  q = p \/ (In q posts /\ Post._id q <> Post._id p).
Proof.
  induction posts as [| r rest IH]; simpl; [tauto |].
  intros Hnd. inversion Hnd as [| ? ? Hr Hrest]; subst.
  destruct (Post._id r =? Post._id p)%nat eqn:E; simpl.
  - apply Nat.eqb_eq in E. intros [<- | H]; [now left |].
    right. split; [now right |]. intros Heq. apply Hr.
    rewrite E, <- Heq. now apply in_map.
  - apply Nat.eqb_neq in E. intros [<- | H].
    + right. split; [now left | assumption].
    + destruct (IH Hrest H) as [-> | [Hin Hne]]; [now left |].
      right. split; [now right | assumption].
Qed.

Lemma findLike_None (likes : list Like.t) (user post : ObjectId) :
  findLike likes user post = None
  <-> forall l, In l likes ->
                ~ (Like.userId l = user /\ Like.postId l = post).
Proof.
  unfold findLike. split.
  - intros H l Hl [Hu Hp].
    apply (find_none _ _ H) in Hl.
    rewrite <- Hu, <- Hp, !Nat.eqb_refl in Hl. discriminate Hl.
  - intros H. induction likes as [| l rest IH]; simpl; [reflexivity |].
    destruct ((Like.userId l =? user)%nat && (Like.postId l =? post)%nat)
      eqn:E.
    + apply andb_true_iff in E. destruct E as [E1 E2].
      apply Nat.eqb_eq in E1, E2.
      exfalso. apply (H l); [now left | auto].
    + apply IH. intros l' Hl'. apply H. now right.
Qed.

Lemma findLike_app_new (likes : list Like.t) (user post : ObjectId) :
  findLike (likes ++ [Like.mk user post]) user post <> None.
Proof.
  intros H. rewrite findLike_None in H.
  apply (H (Like.mk user post)); [| split; reflexivity].
  apply in_or_app. right. now left.
Qed.

Lemma deleteLike_app_new (likes : list Like.t) (user post : ObjectId) :
  findLike likes user post = None ->
  deleteLike (likes ++ [Like.mk user post]) user post = likes.
Proof.
  unfold findLike.
  induction likes as [| l rest IH]; simpl; intros H.
  - now rewrite !Nat.eqb_refl.
  - destruct ((Like.userId l =? user)%nat && (Like.postId l =? post)%nat);
      [discriminate |].
    now rewrite IH.
Qed.

Lemma incrementLikes_fields (p : Post.t) :
  Post.isActive (Post.incrementLikes p) = Post.isActive p
  /\ Post.tags (Post.incrementLikes p) = Post.tags p
  /\ Post.createdAt (Post.incrementLikes p) = Post.createdAt p
  /\ Post.userId (Post.incrementLikes p) = Post.userId p
  /\ Post.comments (Post.incrementLikes p) = Post.comments p
  /\ Post.views (Post.incrementLikes p) = Post.views p
  /\ Post.shares (Post.incrementLikes p) = Post.shares p.
Proof. repeat split. Qed.

Lemma decrementLikes_fields (p : Post.t) :
  Post.isActive (Post.decrementLikes p) = Post.isActive p
  /\ Post.tags (Post.decrementLikes p) = Post.tags p
  /\ Post.createdAt (Post.decrementLikes p) = Post.createdAt p
  /\ Post.userId (Post.decrementLikes p) = Post.userId p
  /\ Post.comments (Post.decrementLikes p) = Post.comments p
  /\ Post.views (Post.decrementLikes p) = Post.views p
  /\ Post.shares (Post.decrementLikes p) = Post.shares p.
Proof.
  unfold Post.decrementLikes. destruct (Post.likes p >? 0); repeat split.
Qed.

Lemma decrement_increment (p : Post.t) :
  0 <= Post.likes p ->
  Post.decrementLikes (Post.incrementLikes p) = Post.updateEngagement p.
Proof.
  intros H. unfold Post.decrementLikes.
  destruct (incrementLikes_likes p) as [_ Hl]. rewrite Hl.
  assert (E : (Post.likes p + 1 >? 0) = true)
    by (rewrite Z.gtb_ltb; apply Z.ltb_lt; lia).
  rewrite E. destruct p as [i u t l c v s a cr e].
  unfold Post.incrementLikes, Post.updateEngagement, Post.set_likes.
  cbn [Post._id Post.userId Post.tags Post.likes Post.comments Post.views
       Post.shares Post.isActive Post.createdAt Post.engagement].
  replace (l + 1 - 1) with l by lia. reflexivity.
Qed.

(** What a successful like does to the store. *)
Lemma likePost_success (db db' : DB) (user postId : ObjectId)
    (status : nat) (body : LikeBody) :
  likePost db user postId = (db', Json status body) ->
  exists post,
    findById (db_posts db) postId = Some post
    /\ Post.isActive post = true
    /\ findLike (db_likes db) user postId = None
    /\ db' = mkDB (save (Post.incrementLikes post) (db_posts db))
                  (db_likes db ++ [Like.mk user postId])
    /\ status = 200%nat.
Proof.
  unfold likePost. intros H.
  destruct (findById (db_posts db) postId) as [post |]; [| discriminate].
  destruct (Post.isActive post) eqn:Ea; [| discriminate]. cbn [negb] in H.
  destruct (findLike (db_likes db) user postId) eqn:El; [discriminate |].
  inversion H; subst. exists post. auto.
Qed.

(** What a successful unlike does to the store. *)
Lemma unlikePost_success (db db' : DB) (user postId : ObjectId)
    (status : nat) (body : LikeBody) :
  unlikePost db user postId = (db', Json status body) ->
  exists post,
    findById (db_posts db) postId = Some post
    /\ findLike (db_likes db) user postId <> None
    /\ db' = mkDB (save (Post.decrementLikes post) (db_posts db))
                  (deleteLike (db_likes db) user postId)
    /\ status = 200%nat.
Proof.
  unfold unlikePost. intros H.
  destruct (findById (db_posts db) postId) as [post |]; [| discriminate].
  destruct (findLike (db_likes db) user postId) eqn:El; [| discriminate].
  inversion H; subst. exists post.
  split; [reflexivity |]. split; [discriminate | auto].
Qed.

(** ** Liking and unliking *)

(** X11: a like followed by the same user's unlike is a round trip.  For
    a post whose counter was not negative, the unlike succeeds, the like
    documents are as before, and the posts are as before except that the
    engagement of the post is recomputed from its counters. *)
Theorem like_unlike_round_trip (db db1 : DB) (user postId : ObjectId)
    (status : nat) (body : LikeBody) (before : Post.t) :
  likePost db user postId = (db1, Json status body) ->
  findById (db_posts db) postId = Some before ->
  0 <= Post.likes before ->
  exists db2 body2,
    unlikePost db1 user postId = (db2, Json 200 body2)
    /\ db_likes db2 = db_likes db
    /\ db_posts db2 = save (Post.updateEngagement before) (db_posts db)
    /\ findById (db_posts db2) postId = Some (Post.updateEngagement before).
Proof.
  intros Hlike Hfind Hpos.
  apply likePost_success in Hlike.
  destruct Hlike as (post & Hfind' & Hact & Hnone & -> & _).
  rewrite Hfind in Hfind'. inversion Hfind'; subst post; clear Hfind'.
  destruct (incrementLikes_likes before) as [Hid _].
  assert (Hfound :
    findById (save (Post.incrementLikes before) (db_posts db)) postId
    = Some (Post.incrementLikes before))
    by now apply findById_save with before.
  unfold unlikePost. cbn [db_posts db_likes]. rewrite Hfound.
  destruct (findLike (db_likes db ++ [Like.mk user postId]) user postId)
    eqn:El; [| now apply findLike_app_new in El].
  rewrite (decrement_increment before Hpos).
  rewrite deleteLike_app_new by assumption.
  rewrite save_save by exact Hid.
  eexists. eexists. split; [reflexivity |]. cbn [db_posts db_likes].
  split; [reflexivity |]. split; [reflexivity |].
  now apply findById_save with before.
Qed.

Lemma like_unlike_round_trip_witness :
  exists db2 body2,
    unlikePost (fst (likePost sampleDB 9%nat 3%nat)) 9%nat 3%nat
    = (db2, Json 200 body2)
    /\ db_likes db2 = db_likes sampleDB
    /\ db_posts db2
       = save (Post.updateEngagement (samplePost 3 100 30))
              (db_posts sampleDB)
    /\ findById (db_posts db2) 3%nat
       = Some (Post.updateEngagement (samplePost 3 100 30)).
Proof.
  apply (like_unlike_round_trip sampleDB (fst (likePost sampleDB 9%nat 3%nat))
           9%nat 3%nat 200%nat
           (mkLikeBody "Post liked successfully" 102)
           (samplePost 3 100 30)).
  - reflexivity.
  - reflexivity.
  - simpl. lia.
Defined.

(** X12: after a successful like, a second like of the same post by the
    same user is refused with status 400 (the post is already liked) and
    leaves the store as it is. *)
Theorem second_like_refused (db db1 : DB) (user postId : ObjectId)
    (status : nat) (body : LikeBody) :
  likePost db user postId = (db1, Json status body) ->
  likePost db1 user postId = (db1, Error 400 "Post already liked").
Proof.
  intros Hlike. apply likePost_success in Hlike.
  destruct Hlike as (post & Hfind & Hact & Hnone & -> & _).
  destruct (incrementLikes_likes post) as [Hid _].
  unfold likePost. cbn [db_posts db_likes].
  rewrite (findById_save _ _ post (Post.incrementLikes post) Hfind Hid).
  destruct (incrementLikes_fields post) as [Ha _]. rewrite Ha, Hact.
  cbn [negb].
  destruct (findLike (db_likes db ++ [Like.mk user postId]) user postId)
    eqn:El; [reflexivity | now apply findLike_app_new in El].
Qed.

Lemma second_like_refused_witness :
  likePost (fst (likePost sampleDB 9%nat 3%nat)) 9%nat 3%nat
  = (fst (likePost sampleDB 9%nat 3%nat), Error 400 "Post already liked").
Proof.
  apply (second_like_refused sampleDB (fst (likePost sampleDB 9%nat 3%nat))
           9%nat 3%nat 200%nat (mkLikeBody "Post liked successfully" 102)).
  reflexivity.
Defined.

(** X13: a like, unlike or view request that is answered with an error
    never changes the store. *)
Theorem refused_requests_keep_store (db db' : DB) (user postId : ObjectId)
    (status : nat) (error : string) :
  (likePost db user postId = (db', Error status error) -> db' = db)
  /\ (unlikePost db user postId = (db', Error status error) -> db' = db)
  /\ (getPost db user postId = (db', Error status error) -> db' = db).
Proof.
  unfold likePost, unlikePost, getPost.
  destruct (findById (db_posts db) postId) as [post |].
  - destruct (Post.isActive post); cbn [negb];
      destruct (findLike (db_likes db) user postId);
      repeat split; intros H; inversion H; reflexivity.
  - repeat split; intros H; inversion H; reflexivity.
Qed.

Lemma refused_requests_keep_store_witness :
  fst (unlikePost sampleDB 9%nat 3%nat) = sampleDB.
Proof.
  apply (proj1 (proj2 (refused_requests_keep_store sampleDB
                         (fst (unlikePost sampleDB 9%nat 3%nat))
                         9%nat 3%nat 400%nat "Post not liked"))).
  reflexivity.
Defined.

(** X14: like counters never become negative.  If no stored counter is
    negative before a like or an unlike request, none is after it,
    whatever the request and its answer. *)
Theorem likes_stay_nonnegative (db : DB) (user postId : ObjectId) :
  (forall p, In p (db_posts db) -> 0 <= Post.likes p) ->
  (forall p, In p (db_posts (fst (likePost db user postId))) ->
             0 <= Post.likes p)
  /\ (forall p, In p (db_posts (fst (unlikePost db user postId))) ->
                0 <= Post.likes p).
Proof.
  intros Hinv. unfold likePost, unlikePost.
  destruct (findById (db_posts db) postId) as [post |] eqn:Hfind;
    [| split; exact Hinv].
  assert (Hpost : 0 <= Post.likes post).
  { apply Hinv. unfold findById in Hfind. now apply find_some in Hfind. }
  split.
  - destruct (negb (Post.isActive post)); [exact Hinv |].
    destruct (findLike (db_likes db) user postId); [exact Hinv |].
    cbn [fst db_posts]. intros p Hp.
    apply In_save in Hp. destruct Hp as [-> | Hp]; [| now apply Hinv].
    destruct (incrementLikes_likes post) as [_ ->]. lia.
  - destruct (findLike (db_likes db) user postId); [| exact Hinv].
    cbn [fst db_posts]. intros p Hp.
    apply In_save in Hp. destruct Hp as [-> | Hp]; [| now apply Hinv].
    destruct (decrementLikes_likes post) as [_ ->].
    destruct (Post.likes post >? 0) eqn:E; [| assumption].
    rewrite Z.gtb_ltb in E. apply Z.ltb_lt in E. lia.
Qed.

Lemma likes_stay_nonnegative_witness :
  Forall (fun p => 0 <= Post.likes p)
    (db_posts (fst (unlikePost (fst (likePost sampleDB 9%nat 1%nat))
                               9%nat 1%nat))).
Proof.
  assert (H0 : forall p, In p (db_posts sampleDB) -> 0 <= Post.likes p).
  { intros p Hp. simpl in Hp.
    destruct Hp as [<- | [<- | [<- | [<- | [<- | []]]]]]; simpl; lia. }
  apply Forall_forall.
  exact (proj2 (likes_stay_nonnegative
                  (fst (likePost sampleDB 9%nat 1%nat)) 9%nat 1%nat
                  (proj1 (likes_stay_nonnegative sampleDB 9%nat 1%nat H0)))).
Defined.

(** X15: a like or an unlike request touches one post only.  No post is
    added or removed, every other post is found as before, and the post
    itself keeps everything but its like counter and engagement. *)
Theorem like_touches_one_post (db : DB) (user postId : ObjectId) :
  let db1 := fst (likePost db user postId) in
  let db2 := fst (unlikePost db user postId) in
  map Post._id (db_posts db1) = map Post._id (db_posts db)
  /\ map Post._id (db_posts db2) = map Post._id (db_posts db)
  /\ (forall id, id <> postId ->
        findById (db_posts db1) id = findById (db_posts db) id
        /\ findById (db_posts db2) id = findById (db_posts db) id)
  /\ (forall p, findById (db_posts db) postId = Some p ->
        (exists p1, findById (db_posts db1) postId = Some p1
                    /\ same_but_likes p p1)
        /\ (exists p2, findById (db_posts db2) postId = Some p2
                       /\ same_but_likes p p2)).
Proof.
  intros db1 db2. unfold db1, db2, likePost, unlikePost. clear db1 db2.
  destruct (findById (db_posts db) postId) as [post |] eqn:Hfind.
  - assert (Hid : Post._id post = postId) by now apply findById_id in Hfind.
    destruct (incrementLikes_likes post) as [Hi _].
    destruct (decrementLikes_likes post) as [Hd _].
    assert (Hsame_i : same_but_likes post (Post.incrementLikes post))
      by (unfold same_but_likes; repeat split).
    assert (Hsame_d : same_but_likes post (Post.decrementLikes post)).
    { unfold same_but_likes, Post.decrementLikes.
      destruct (Post.likes post >? 0); repeat split. }
    assert (Hsame : same_but_likes post post)
      by (unfold same_but_likes; repeat split).
    destruct (negb (Post.isActive post));
      destruct (findLike (db_likes db) user postId);
      cbn [fst db_posts]; rewrite ?save_ids;
      (split; [reflexivity |]); (split; [reflexivity |]);
      (split;
       [ intros id Hne;
         rewrite ?findById_save_other by congruence; split; reflexivity
       | intros p Hp; inversion Hp; subst p; split;
         first [ exists post; split; [exact Hfind | exact Hsame]
               | eexists; split;
                 [ eapply findById_save; [exact Hfind | eassumption]
                 | assumption ] ] ]).
  - cbn [fst]. repeat split; try reflexivity; discriminate.
Qed.

Lemma like_touches_one_post_witness :
  findById (db_posts (fst (likePost sampleDB 9%nat 3%nat))) 1%nat
  = findById (db_posts sampleDB) 1%nat.
Proof.
  destruct (like_touches_one_post sampleDB 9%nat 3%nat)
    as (_ & _ & Hother & _).
  apply (Hother 1%nat). discriminate.
Defined.

Lemma likeCount_app_new (likes : list Like.t) (user post id : ObjectId) :
  likeCount (likes ++ [Like.mk user post]) id
  = (likeCount likes id + (if (post =? id)%nat then 1 else 0))%nat.
Proof.
  unfold likeCount. rewrite filter_app, length_app. simpl.
  destruct (post =? id)%nat; reflexivity.
Qed.

Lemma likeCount_deleteLike (likes : list Like.t) (user post id : ObjectId) :
  findLike likes user post <> None ->
  likeCount likes id
  = (likeCount (deleteLike likes user post) id
     + (if (post =? id)%nat then 1 else 0))%nat.
Proof.
  unfold findLike, likeCount.
  induction likes as [| l rest IH]; simpl; intros H; [congruence |].
  destruct ((Like.userId l =? user)%nat && (Like.postId l =? post)%nat)
    eqn:E.
  - apply andb_true_iff in E. destruct E as [_ E].
    apply Nat.eqb_eq in E. rewrite E.
    destruct (post =? id)%nat; simpl; lia.
  - simpl. specialize (IH H).
    destruct (Like.postId l =? id)%nat; simpl; lia.
Qed.

(** X16: with distinct post identifiers, like and unlike requests keep
    every stored like counter equal to the number of like documents on
    its post. *)
Theorem counters_stay_consistent (db : DB) (user postId : ObjectId) :
  NoDup (map Post._id (db_posts db)) ->
  counters_consistent db ->
  counters_consistent (fst (likePost db user postId))
  /\ counters_consistent (fst (unlikePost db user postId)).
Proof.
  intros Hnd Hcons. unfold likePost, unlikePost.
  destruct (findById (db_posts db) postId) as [post |] eqn:Hfind;
    [| split; exact Hcons].
  assert (Hid : Post._id post = postId) by now apply findById_id in Hfind.
  assert (Hin : In post (db_posts db))
    by (unfold findById in Hfind; now apply find_some in Hfind).
  split.
  - destruct (negb (Post.isActive post)); [exact Hcons |].
    destruct (findLike (db_likes db) user postId); [exact Hcons |].
    cbn [fst]. intros p Hp. cbn [db_posts db_likes] in *.
    rewrite likeCount_app_new.
    apply In_save_NoDup in Hp; [| assumption].
    destruct (incrementLikes_likes post) as [Hi Hl].
    destruct Hp as [-> | [Hp Hne]].
    + rewrite Hi, Hl, Hid, Nat.eqb_refl, (Hcons post Hin), Hid. lia.
    + rewrite Hi, Hid in Hne.
      assert (E : (postId =? Post._id p)%nat = false)
        by (apply Nat.eqb_neq; congruence).
      rewrite E, (Hcons p Hp). lia.
  - destruct (findLike (db_likes db) user postId) eqn:El; [| exact Hcons].
    cbn [fst]. intros p Hp. cbn [db_posts db_likes] in *.
    assert (Hsome : findLike (db_likes db) user postId <> None)
      by congruence.
    apply In_save_NoDup in Hp; [| assumption].
    destruct (decrementLikes_likes post) as [Hi Hl].
    destruct Hp as [-> | [Hp Hne]].
    + rewrite Hi, Hl, Hid.
      assert (Hc := likeCount_deleteLike (db_likes db) user postId postId
                      Hsome).
      rewrite Nat.eqb_refl in Hc.
      assert (Hp := Hcons post Hin). rewrite Hid in Hp.
      assert (E : (Post.likes post >? 0) = true)
        by (rewrite Z.gtb_ltb; apply Z.ltb_lt; lia).
      rewrite E. lia.
    + rewrite Hi, Hid in Hne.
      assert (Hc := likeCount_deleteLike (db_likes db) user postId
                      (Post._id p) Hsome).
      assert (E : (postId =? Post._id p)%nat = false)
        by (apply Nat.eqb_neq; congruence).
      rewrite E in Hc. rewrite (Hcons p Hp). lia.
Qed.

Lemma counters_stay_consistent_witness :
  let db := mkDB [samplePost 1 1 10; samplePost 2 0 20] [Like.mk 8%nat 1%nat] in
  counters_consistent (fst (likePost db 9%nat 2%nat))
  /\ counters_consistent (fst (unlikePost db 8%nat 1%nat)).
Proof.
  intros db.
  assert (Hnd : NoDup (map Post._id (db_posts db))).
  { simpl. repeat constructor; simpl; intuition discriminate. }
  assert (Hcons : counters_consistent db).
  { intros p Hp. simpl in Hp. destruct Hp as [<- | [<- | []]]; reflexivity. }
  split.
  - exact (proj1 (counters_stay_consistent db 9%nat 2%nat Hnd Hcons)).
  - exact (proj2 (counters_stay_consistent db 8%nat 1%nat Hnd Hcons)).
Defined.

Lemma deleteLike_In (likes : list Like.t) (user post : ObjectId)
    (l : Like.t) :
  In l (deleteLike likes user post) -> In l likes.
Proof.
  induction likes as [| x rest IH]; simpl; [tauto |].
  destruct ((Like.userId x =? user)%nat && (Like.postId x =? post)%nat).
  - now right.
  - intros [<- | H]; auto.
Qed.

Lemma deleteLike_unique (likes : list Like.t) (user post : ObjectId) :
  likes_unique likes -> likes_unique (deleteLike likes user post).
Proof.
  unfold likes_unique.
  induction likes as [| x rest IH]; simpl; intros H; [assumption |].
  inversion H as [| ? ? Hx Hrest]; subst.
  destruct ((Like.userId x =? user)%nat && (Like.postId x =? post)%nat);
    [assumption |].
  simpl. constructor; [| now apply IH].
  intros Hin. apply Hx. apply in_map_iff in Hin.
  destruct Hin as [l [Hl Hin]]. apply deleteLike_In in Hin.
  apply in_map_iff. eauto.
Qed.

Lemma deleteLike_removes (likes : list Like.t) (user post : ObjectId) :
  likes_unique likes ->
  findLike (deleteLike likes user post) user post = None.
Proof.
  unfold likes_unique. intros Hu. apply findLike_None.
  induction likes as [| x rest IH]; simpl; [tauto |].
  inversion Hu as [| ? ? Hx Hrest]; subst.
  destruct ((Like.userId x =? user)%nat && (Like.postId x =? post)%nat)
    eqn:E.
  - apply andb_true_iff in E. destruct E as [E1 E2].
    apply Nat.eqb_eq in E1, E2.
    intros l Hl [H1 H2]. apply Hx. apply in_map_iff.
    exists l. split; [congruence | assumption].
  - intros l [<- | Hl] [H1 H2].
    + rewrite H1, H2, !Nat.eqb_refl in E. discriminate E.
    + now apply (IH Hrest l Hl).
Qed.

(** X17: like and unlike requests keep the like documents free of
    duplicates (one per user and post).  After a successful unlike the
    user has no like left on the post, and a second unlike is refused
    with status 400 without changing the store. *)
Theorem likes_stay_unique (db : DB) (user postId : ObjectId) :
  likes_unique (db_likes db) ->
  likes_unique (db_likes (fst (likePost db user postId)))
  /\ likes_unique (db_likes (fst (unlikePost db user postId)))
  /\ (forall db' status body,
        unlikePost db user postId = (db', Json status body) ->
        findLike (db_likes db') user postId = None
        /\ unlikePost db' user postId = (db', Error 400 "Post not liked")).
Proof.
  intros Hu. split; [| split].
  - unfold likePost.
    destruct (findById (db_posts db) postId) as [post |]; [| exact Hu].
    destruct (negb (Post.isActive post)); [exact Hu |].
    destruct (findLike (db_likes db) user postId) eqn:El; [exact Hu |].
    cbn [fst db_likes]. unfold likes_unique in *.
    rewrite map_app. apply NoDup_app; try assumption.
    + simpl. constructor; [intros [] | constructor].
    + intros pair Hin [<- | []]. apply in_map_iff in Hin.
      destruct Hin as [l [Hpair Hl]]. inversion Hpair.
      rewrite findLike_None in El. now apply (El l Hl).
  - unfold unlikePost.
    destruct (findById (db_posts db) postId) as [post |]; [| exact Hu].
    destruct (findLike (db_likes db) user postId); [| exact Hu].
    cbn [fst db_likes]. now apply deleteLike_unique.
  - intros db' status body H. apply unlikePost_success in H.
    destruct H as (post & Hfind & _ & -> & _). cbn [db_likes db_posts].
    assert (Hnone := deleteLike_removes (db_likes db) user postId Hu).
    split; [exact Hnone |].
    unfold unlikePost. cbn [db_likes db_posts].
    destruct (decrementLikes_likes post) as [Hid _].
    rewrite (findById_save _ _ post _ Hfind Hid). now rewrite Hnone.
Qed.

Lemma likes_stay_unique_witness :
  let db := mkDB [samplePost 1 1 10] [Like.mk 8%nat 1%nat] in
  findLike (db_likes (fst (unlikePost db 8%nat 1%nat))) 8%nat 1%nat = None.
Proof.
  intros db.
  assert (Hu : likes_unique (db_likes db)).
  { unfold likes_unique. simpl. repeat constructor. intros []. }
  refine (proj1 (proj2 (proj2 (likes_stay_unique db 8%nat 1%nat Hu))
                   (fst (unlikePost db 8%nat 1%nat)) 200%nat
                   (mkLikeBody "Post unliked successfully" 0) _)).
  reflexivity.
Defined.

(** ** Viewing a post *)

(** X18: a served view of a post counts exactly one view.  The post was
    active; the stored post and the post in the answer have one view
    more and the same likes, comments and shares; the like documents are
    untouched; and the answer says whether the user likes the post. *)
Theorem view_counts_once (db db' : DB) (user postId : ObjectId)
    (status : nat) (shown : Post.t) (liked : bool) :
  getPost db user postId = (db', Json status (shown, liked)) ->
  exists before,
    findById (db_posts db) postId = Some before
    /\ Post.isActive before = true
    /\ findById (db_posts db') postId = Some shown
    /\ Post.views shown = Post.views before + 1
    /\ Post.likes shown = Post.likes before
    /\ Post.comments shown = Post.comments before
    /\ Post.shares shown = Post.shares before
    /\ db_likes db' = db_likes db
    /\ (liked = true <-> findLike (db_likes db) user postId <> None)
    /\ status = 200%nat.
Proof.
  unfold getPost. intros H.
  destruct (findById (db_posts db) postId) as [post |] eqn:Hfind;
    [| discriminate].
  destruct (Post.isActive post) eqn:Ha; [| discriminate]. cbn [negb] in H.
  inversion H; subst; clear H. exists post.
  split; [reflexivity |]. split; [assumption |].
  split; [now apply findById_save with post |].
  repeat (split; [reflexivity |]).
  split; [| reflexivity].
  destruct (findLike (db_likes db) user postId); split; intros H;
    try reflexivity; try discriminate; congruence.
Qed.

Lemma view_counts_once_witness :
  exists before,
    findById (db_posts sampleDB) 3%nat = Some before
    /\ Post.isActive before = true
    /\ findById (db_posts (fst (getPost sampleDB 9%nat 3%nat))) 3%nat
       = Some (Post.incrementViews (samplePost 3 100 30))
    /\ Post.views (Post.incrementViews (samplePost 3 100 30))
       = Post.views before + 1
    /\ Post.likes (Post.incrementViews (samplePost 3 100 30))
       = Post.likes before
    /\ Post.comments (Post.incrementViews (samplePost 3 100 30))
       = Post.comments before
    /\ Post.shares (Post.incrementViews (samplePost 3 100 30))
       = Post.shares before
    /\ db_likes (fst (getPost sampleDB 9%nat 3%nat)) = db_likes sampleDB
    /\ (false = true <-> findLike (db_likes sampleDB) 9%nat 3%nat <> None)
    /\ 200%nat = 200%nat.
Proof.
  apply (view_counts_once sampleDB (fst (getPost sampleDB 9%nat 3%nat))
           9%nat 3%nat 200%nat
           (Post.incrementViews (samplePost 3 100 30)) false).
  reflexivity.
Defined.

(** ** Trending posts *)

Lemma trending_after_false (a b : Post.t) :
  trending_after a b = false <-> trending_before a b.
Proof.
  unfold trending_after, trending_before.
  destruct (Post.engagement a ?= Post.engagement b)%Q eqn:E.
  - apply Qeq_alt in E. rewrite Z.ltb_ge. split.
    + intros H. right. split; assumption.
    + intros [H | [_ H]]; [lra | assumption].
  - apply Qlt_alt in E. split; [discriminate |].
    intros [H | [H _]]; lra.
  - apply Qgt_alt in E. split; [| reflexivity]. intros _. now left.
Qed.

Lemma trending_after_true (a b : Post.t) :
  trending_after a b = true ->
  (Post.engagement a < Post.engagement b)%Q
  \/ ((Post.engagement a == Post.engagement b)%Q
      /\ Post.likes a < Post.likes b).
Proof.
  unfold trending_after.
  destruct (Post.engagement a ?= Post.engagement b)%Q eqn:E.
  - apply Qeq_alt in E. rewrite Z.ltb_lt. now right.
  - apply Qlt_alt in E. now left.
  - discriminate.
Qed.

Lemma trending_after_asym (x y : Post.t) :
  trending_after x y = true -> trending_after y x = false.
Proof.
  intros H. apply trending_after_true in H.
  apply trending_after_false. unfold trending_before.
  destruct H as [H | [H1 H2]].
  - now left.
  - right. split; [lra | lia].
Qed.

Lemma trending_after_trans (x y z : Post.t) :
  trending_after x y = false -> trending_after y z = false ->
  trending_after x z = false.
Proof.
  rewrite !trending_after_false. unfold trending_before.
  intros [H1 | [H1 L1]] [H2 | [H2 L2]].
  - left. lra.
  - left. lra.
  - left. lra.
  - right. split; [lra | lia].
Qed.

Lemma getTrending_sorted (posts : list Post.t) (limit dateLimit : Z) :
  StronglySorted trending_before (getTrending posts limit dateLimit).
Proof.
  unfold getTrending, mongo_limit.
  assert (Hs : StronglySorted trending_before
                 (array_sort trending_after
                    (filter (fun p => Post.isActive p
                                      && (dateLimit <=? Post.createdAt p))
                            posts))).
  { apply StronglySorted_weaken
      with (R1 := sorted_rel trending_after (fun _ _ => True)).
    - intros a b [H _]. now apply trending_after_false.
    - apply array_sort_sorted.
      + exact trending_after_asym.
      + exact trending_after_trans.
      + induction (filter _ posts); constructor; auto.
        now apply Forall_forall. }
  destruct (limit =? 0); [exact Hs | now apply StronglySorted_firstn].
Qed.

Lemma withLikeStatus_posts (likes : list Like.t) (user : ObjectId)
    (l : list Post.t) :
  map fst (withLikeStatus likes user l) = l.
Proof.
  unfold withLikeStatus. rewrite map_map. simpl. apply map_id.
Qed.

(** X19: the trending route does not page.  Two served requests that
    differ only in the page parameter are answered with the same posts
    and the same [hasMore]. *)
Theorem trending_ignores_page (daysBefore : Z -> Z -> Z) (db : DB)
    (user : ObjectId) (page1 page2 query_limit query_days : option string)
    (now : Z) (s1 s2 : nat) (b1 b2 : TrendingBody) :
  getTrendingRoute daysBefore db user page1 query_limit query_days now
  = Json s1 b1 ->
  getTrendingRoute daysBefore db user page2 query_limit query_days now
  = Json s2 b2 ->
  tr_posts b1 = tr_posts b2 /\ tr_hasMore b1 = tr_hasMore b2
  /\ tr_limit b1 = tr_limit b2 /\ tr_days b1 = tr_days b2.
Proof.
  unfold getTrendingRoute.
  destruct ((or_default (parseInt page1) 1 <? 1)
            || (or_default (parseInt query_limit) 10 <? 1)
            || (or_default (parseInt query_limit) 10 >? 50));
    [discriminate |].
  destruct ((or_default (parseInt page2) 1 <? 1)
            || (or_default (parseInt query_limit) 10 <? 1)
            || (or_default (parseInt query_limit) 10 >? 50));
    [discriminate |].
  intros H1 H2. inversion H1; inversion H2; subst. repeat split.
Qed.

Lemma trending_ignores_page_witness :
  exists b1 b2,
    getTrendingRoute (fun now days => now - days * 86400000) sampleDB 7%nat
      (Some "1"%string) (Some "2"%string) None 100 = Json 200 b1
    /\ getTrendingRoute (fun now days => now - days * 86400000) sampleDB
         7%nat (Some "2"%string) (Some "2"%string) None 100 = Json 200 b2
    /\ tr_posts b1 = tr_posts b2.
Proof.
  eexists. eexists.
  split; [reflexivity |]. split; [reflexivity |].
  eapply (proj1 (trending_ignores_page
                   (fun now days => now - days * 86400000) sampleDB 7%nat
                   (Some "1"%string) (Some "2"%string) (Some "2"%string)
                   None 100 200%nat 200%nat _ _ _ _)).
  Unshelve. all: reflexivity.
Defined.

Lemma mongo_limit_positive (A : Type) (n : Z) (l : list A) :
  0 < n -> mongo_limit n l = firstn (Z.to_nat n) l.
Proof.
  intros H. unfold mongo_limit.
  assert (E : (n =? 0) = false) by (apply Z.eqb_neq; lia).
  rewrite E. now rewrite Z.abs_eq by lia.
Qed.

Lemma slice_prefix (A : Type) (k : Z) (l : list A) :
  0 <= k -> slice 0 k l = firstn (Z.to_nat k) l.
Proof.
  intros H.
  replace k with (Z.of_nat 0 + Z.of_nat (Z.to_nat k)) at 1 by lia.
  change 0 with (Z.of_nat 0) at 1. now rewrite slice_nonneg.
Qed.

(** X20: a served trending request lists at most [limit] posts, all of
    them active posts of the window, in the order engagement descending,
    then likes descending; [hasMore] is true exactly when the window
    holds more than [limit] active posts. *)
Theorem trending_page_content (daysBefore : Z -> Z -> Z) (db : DB)
    (user : ObjectId) (query_page query_limit query_days : option string)
    (now : Z) (status : nat) (body : TrendingBody) :
  getTrendingRoute daysBefore db user query_page query_limit query_days now
  = Json status body ->
  1 <= tr_limit body <= 50
  /\ Z.of_nat (List.length (tr_posts body)) <= tr_limit body
  /\ (forall p liked, In (p, liked) (tr_posts body) ->
        In p (db_posts db)
        /\ Post.isActive p = true
        /\ daysBefore now (tr_days body) <= Post.createdAt p)
  /\ StronglySorted trending_before (map fst (tr_posts body))
  /\ (tr_hasMore body = true
      <-> tr_limit body
          < Z.of_nat (List.length
                        (filter (inWindow (daysBefore now (tr_days body)))
                                (db_posts db)))).
Proof.
  unfold getTrendingRoute.
  set (k := or_default (parseInt query_limit) 10).
  set (d := or_default (parseInt query_days) 7).
  destruct (or_default (parseInt query_page) 1 <? 1); [discriminate |].
  destruct (k <? 1) eqn:E2; [discriminate |].
  destruct (k >? 50) eqn:E3; [discriminate |].
  cbn [orb]. intros H. inversion H; subst; clear H.
  cbn [tr_limit tr_posts tr_hasMore tr_days].
  apply Z.ltb_ge in E2. rewrite Z.gtb_ltb in E3. apply Z.ltb_ge in E3.
  set (found := getTrending (db_posts db) (k + 1) (daysBefore now d)).
  assert (Hfound : found
                   = firstn (Z.to_nat (k + 1))
                       (array_sort trending_after
                          (filter (inWindow (daysBefore now d))
                                  (db_posts db)))).
  { unfold found, getTrending. now rewrite mongo_limit_positive by lia. }
  assert (Hpage : map fst (withLikeStatus (db_likes db) user
                             (slice 0 k found))
                  = firstn (Z.to_nat k) found).
  { rewrite withLikeStatus_posts. apply slice_prefix. lia. }
  split; [lia |]. split.
  { rewrite <- (length_map fst), Hpage, length_firstn. lia. }
  split.
  { intros p liked Hin. apply (in_map fst) in Hin. rewrite Hpage in Hin.
    cbn [fst] in Hin. apply In_firstn in Hin. rewrite Hfound in Hin.
    apply In_firstn in Hin.
    apply (proj1 (array_sort_In _ _ _ _)) in Hin.
    apply filter_In in Hin. destruct Hin as [Hin Hw].
    unfold inWindow in Hw. apply andb_true_iff in Hw.
    destruct Hw as [Ha Hc]. apply Z.leb_le in Hc. auto. }
  split.
  { rewrite Hpage. apply StronglySorted_firstn. apply getTrending_sorted. }
  rewrite Z.ltb_lt, Hfound, length_firstn, array_sort_length. lia.
Qed.

Lemma trending_page_content_witness :
  exists body,
    getTrendingRoute (fun now days => now - days * 86400000) sampleDB 7%nat
      None (Some "2"%string) None 100 = Json 200 body
    /\ Z.of_nat (List.length (tr_posts body)) <= tr_limit body
    /\ tr_hasMore body = true.
Proof.
  eexists. split; [reflexivity |].
  destruct (trending_page_content
              (fun now days => now - days * 86400000) sampleDB 7%nat
              None (Some "2"%string) None 100 200%nat _ eq_refl)
    as (_ & Hlen & _ & _ & Hmore).
  split; [exact Hlen |]. apply Hmore. vm_compute. reflexivity.
Defined.

(** ** Posts by tag *)

Lemma getByTag_page (posts : list Post.t) (tag : string) (i k : nat) :
  (0 < k)%nat ->
  getByTag posts tag (Z.of_nat (S i)) (Z.of_nat k)
  = Some (firstn k (skipn (i * k) (taggedNewestFirst posts tag))).
Proof.
  intros Hk. unfold getByTag.
  replace ((Z.of_nat (S i) - 1) * Z.of_nat k) with (Z.of_nat (i * k))
    by lia.
  assert (E : (Z.of_nat (i * k) <? 0) = false) by (apply Z.ltb_ge; lia).
  rewrite E, mongo_limit_positive by lia.
  now rewrite !Nat2Z.id.
Qed.

Lemma taggedNewestFirst_sorted (posts : list Post.t) (tag : string) :
  StronglySorted newestFirst (taggedNewestFirst posts tag).
Proof.
  unfold taggedNewestFirst.
  apply StronglySorted_weaken
    with (R1 := sorted_rel
                  (fun a b => Post.createdAt a <? Post.createdAt b)
                  (fun _ _ => True)).
  - intros a b [H _]. unfold newestFirst. now apply Z.ltb_ge in H.
  - apply array_sort_sorted.
    + intros x y H. apply Z.ltb_lt in H. apply Z.ltb_ge. lia.
    + intros x y z H1 H2. apply Z.ltb_ge in H1, H2. apply Z.ltb_ge. lia.
    + induction (filter (hasTag tag) posts); constructor; auto.
      now apply Forall_forall.
Qed.

(** X21: a served request for the posts of a tag looks the tag up in
    lower case.  It lists at most [limit] posts, newest first, each an
    active post of the collection that carries the tag, and its total is
    the number of all such posts. *)
Theorem tag_page_content (toLowerCase : string -> string) (db : DB)
    (user : ObjectId) (param_tag : string)
    (query_page query_limit : option string)
    (status : nat) (body : TagBody) :
  getTagRoute toLowerCase db user param_tag query_page query_limit
  = Json status body ->
  tg_tag body = toLowerCase param_tag
  /\ 1 <= tg_limit body <= 50
  /\ Z.of_nat (List.length (tg_posts body)) <= tg_limit body
  /\ (forall p liked, In (p, liked) (tg_posts body) ->
        In p (db_posts db)
        /\ Post.isActive p = true
        /\ In (tg_tag body) (Post.tags p))
  /\ StronglySorted newestFirst (map fst (tg_posts body))
  /\ tg_total body
     = Z.of_nat (List.length
                   (filter (hasTag (tg_tag body)) (db_posts db))).
Proof.
  unfold getTagRoute.
  set (p := or_default (parseInt query_page) 1).
  set (k := or_default (parseInt query_limit) 10).
  set (tag := toLowerCase param_tag).
  destruct (p <? 1) eqn:E1; [discriminate |].
  destruct (k <? 1) eqn:E2; [discriminate |].
  destruct (k >? 50) eqn:E3; [discriminate |].
  cbn [orb].
  apply Z.ltb_ge in E1, E2. rewrite Z.gtb_ltb in E3. apply Z.ltb_ge in E3.
  assert (Hpage := getByTag_page (db_posts db) tag (Z.to_nat (p - 1))
                     (Z.to_nat k) ltac:(lia)).
  replace (Z.of_nat (S (Z.to_nat (p - 1)))) with p in Hpage by lia.
  replace (Z.of_nat (Z.to_nat k)) with k in Hpage by lia.
  rewrite Hpage. intros H. inversion H; subst; clear H.
  cbn [tg_tag tg_limit tg_posts tg_total].
  split; [reflexivity |]. split; [lia |].
  split.
  { rewrite <- (length_map fst), withLikeStatus_posts, length_firstn. lia. }
  split.
  { intros q liked Hin. apply (in_map fst) in Hin.
    rewrite withLikeStatus_posts in Hin. cbn [fst] in Hin.
    apply In_firstn, In_skipn in Hin.
    apply (proj1 (array_sort_In _ _ _ _)) in Hin.
    apply filter_In in Hin. destruct Hin as [Hin Ht].
    unfold hasTag in Ht. apply andb_true_iff in Ht.
    destruct Ht as [Ha Ht]. apply includes_In in Ht. auto. }
  split; [| reflexivity].
  rewrite withLikeStatus_posts.
  apply StronglySorted_firstn, StronglySorted_skipn.
  apply taggedNewestFirst_sorted.
Qed.

Lemma tag_page_content_witness :
  exists body,
    getTagRoute asciiToLowerCase taggedDB 7%nat "Coq" None None
    = Json 200 body
    /\ tg_tag body = "coq"%string
    /\ tg_total body = 2
    /\ map (fun pl => (Post._id (fst pl), snd pl)) (tg_posts body)
       = [(3%nat, true); (1%nat, false)].
Proof.
  eexists. split; [reflexivity |].
  destruct (tag_page_content asciiToLowerCase taggedDB 7%nat "Coq" None None
              200%nat _ eq_refl) as (Htag & _ & _ & _ & _ & Htotal).
  split; [exact Htag |]. split; [exact Htotal | reflexivity].
Defined.

(** X22: the pages of [getByTag] cover a tag without a batch bound.  For
    a page size of at least 1, the pages 1 to [n], one after the other,
    are the first [n * limit] posts of the tag, newest first; once
    [n * limit] reaches their number they are all of them, each once. *)
Theorem getByTag_pages_cover (posts : list Post.t) (tag : string)
    (limit : Z) (n : nat) :
  1 <= limit ->
  List.concat (map (tagPage posts tag limit) (pageNumbers n))
  = firstn (n * Z.to_nat limit) (taggedNewestFirst posts tag)
  /\ (Z.of_nat (List.length (filter (hasTag tag) posts))
      <= Z.of_nat n * limit ->
      List.concat (map (tagPage posts tag limit) (pageNumbers n))
      = taggedNewestFirst posts tag
      /\ Permutation
           (List.concat (map (tagPage posts tag limit) (pageNumbers n)))
           (filter (hasTag tag) posts)).
Proof.
  intros Hk.
  assert (Hcat :
    List.concat (map (tagPage posts tag limit) (pageNumbers n))
    = firstn (n * Z.to_nat limit) (taggedNewestFirst posts tag)).
  { rewrite pageNumbers_shift, map_map, <- windows_concat. f_equal.
    apply map_ext. intros i. unfold tagPage.
    replace limit with (Z.of_nat (Z.to_nat limit)) at 1 by lia.
    now rewrite getByTag_page by lia. }
  split; [exact Hcat |].
  intros Hall.
  assert (Hfull :
    List.concat (map (tagPage posts tag limit) (pageNumbers n))
    = taggedNewestFirst posts tag).
  { rewrite Hcat. apply firstn_all2. unfold taggedNewestFirst.
    rewrite array_sort_length. nia. }
  split; [exact Hfull |].
  rewrite Hfull. apply array_sort_perm.
Qed.

Lemma getByTag_pages_cover_witness :
  List.concat (map (tagPage (db_posts taggedDB) "coq" 1) (pageNumbers 2))
  = taggedNewestFirst (db_posts taggedDB) "coq".
Proof.
  apply (proj2 (getByTag_pages_cover (db_posts taggedDB) "coq" 1 2
                  ltac:(lia))).
  vm_compute. discriminate.
Defined.

(** ** The tags of a new post *)

Lemma NoDup_firstn (A : Type) (n : nat) (l : list A) :
  NoDup l -> NoDup (firstn n l).
Proof.
  intros H. rewrite <- (firstn_skipn n l) in H.
  now apply NoDup_app_remove_r in H.
Qed.

Lemma filter_length_le (A : Type) (f : A -> bool) (l : list A) :
  (List.length (filter f l) <= List.length l)%nat.
Proof.
  induction l as [| x l IH]; simpl; [lia |].
  destruct (f x); simpl; lia.
Qed.

Lemma fold_set_add_length (xs s : list string) :
  (List.length (fold_left set_add xs s)
   <= List.length s + List.length xs)%nat.
Proof.
  revert s. induction xs as [| x xs IH]; intros s; simpl; [lia |].
  specialize (IH (set_add s x)). unfold set_add in *.
  destruct (includes s x); [lia |].
  rewrite length_app in IH. simpl in IH. lia.
Qed.

Lemma nonempty_string (t : string) :
  (0 <? String.length t)%nat = true <-> t <> EmptyString.
Proof.
  destruct t; simpl; split; intros H; try reflexivity; try discriminate.
  congruence.
Qed.

(** X23: the tags stored with a new post are duplicate-free, at most
    ten, never empty, and each is the trimmed lower-case form of a tag
    of the request.  For a tag list that [validateTags] accepts nothing
    is cut off: every tag of the request that is not blank is stored.
    If lower-casing leaves trimmed lower-case text alone, the stored list
    is case-normalized and deduplicated, as the scorer expects. *)
Theorem processTags_spec (toLowerCase trim : string -> string)
    (tags : list string) :
  let stored := processTags toLowerCase trim tags in
  NoDup stored
  /\ (List.length stored <= 10)%nat
  /\ (forall t, In t stored ->
        t <> EmptyString
        /\ exists raw, In raw tags /\ t = trim (toLowerCase raw))
  /\ (validateTags (Some tags) = Valid ->
      forall raw, In raw tags ->
                  trim (toLowerCase raw) <> EmptyString ->
                  In (trim (toLowerCase raw)) stored)
  /\ ((forall s, toLowerCase (trim (toLowerCase s)) = trim (toLowerCase s)) ->
      normalized toLowerCase stored).
Proof.
  intros stored. unfold stored, processTags.
  set (lowered := map (fun tag => trim (toLowerCase tag)) tags).
  set (unique := fold_left set_add lowered []).
  set (kept := filter (fun tag => (0 <? String.length tag)%nat) unique).
  rewrite slice_prefix by lia. change (Z.to_nat 10) with 10%nat.
  assert (Hunique : NoDup unique)
    by (apply fold_set_add_NoDup; constructor).
  assert (Hkept : NoDup kept) by now apply NoDup_filter.
  assert (Hmem : forall t, In t kept <->
            t <> EmptyString
            /\ exists raw, In raw tags /\ t = trim (toLowerCase raw)).
  { intros t. unfold kept. rewrite filter_In, nonempty_string.
    unfold unique. rewrite fold_set_add_In. unfold lowered.
    rewrite in_map_iff. split.
    - intros [[[] | [raw [<- Hraw]]] Hne]. split; [assumption |].
      exists raw. auto.
    - intros [Hne [raw [Hraw ->]]]. split; [| assumption].
      right. exists raw. auto. }
  split; [now apply NoDup_firstn |].
  split; [rewrite length_firstn; lia |].
  split; [intros t Ht; apply In_firstn in Ht; now apply Hmem |].
  split.
  - unfold validateTags.
    destruct (10 <? List.length tags)%nat eqn:E; [discriminate |].
    intros _ raw Hraw Hne. apply Nat.ltb_ge in E.
    rewrite firstn_all2.
    + apply Hmem. split; [assumption |]. exists raw. auto.
    + assert (H1 : (List.length kept <= List.length unique)%nat)
        by apply filter_length_le.
      assert (H2 : (List.length unique <= 0 + List.length lowered)%nat)
        by apply (fold_set_add_length lowered []).
      assert (H3 : List.length lowered = List.length tags)
        by apply length_map.
      lia.
  - intros Hfix. split; [now apply NoDup_firstn |].
    apply Forall_forall. intros t Ht. apply In_firstn in Ht.
    apply Hmem in Ht. destruct Ht as [_ [raw [_ ->]]]. apply Hfix.
Qed.

Lemma asciiLower_idempotent (c : ascii) :
  asciiLower (asciiLower c) = asciiLower c.
Proof.
  destruct c as [[] [] [] [] [] [] [] []]; reflexivity.
Qed.

Lemma asciiToLowerCase_idempotent (s : string) :
  asciiToLowerCase (asciiToLowerCase s) = asciiToLowerCase s.
Proof.
  induction s as [| c s IH]; simpl; [reflexivity |].
  now rewrite asciiLower_idempotent, IH.
Qed.

Lemma trimStart_lowered (s : string) :
  asciiToLowerCase s = s ->
  asciiToLowerCase (trimStart s) = trimStart s.
Proof.
  induction s as [| c s IH]; simpl; [reflexivity |].
  intros H. injection H as Hc Hs.
  destruct (isWhiteSpace c).
  - now apply IH.
  - simpl. now rewrite Hc, Hs.
Qed.

Lemma trimEnd_lowered (s : string) :
  asciiToLowerCase s = s ->
  asciiToLowerCase (trimEnd s) = trimEnd s.
Proof.
  induction s as [| c s IH]; simpl; [reflexivity |].
  intros H. injection H as Hc Hs.
  specialize (IH Hs).
  destruct (trimEnd s) as [| c' r].
  - destruct (isWhiteSpace c); simpl; [reflexivity | now rewrite Hc].
  - simpl in *. now rewrite Hc, IH.
Qed.

Lemma asciiTrim_lowered (s : string) :
  asciiToLowerCase (asciiTrim (asciiToLowerCase s))
  = asciiTrim (asciiToLowerCase s).
Proof.
  unfold asciiTrim. apply trimEnd_lowered, trimStart_lowered.
  apply asciiToLowerCase_idempotent.
Qed.

Example processTags_run :
  processTags asciiToLowerCase asciiTrim
    [" Coq "; "coq"; "  "; "OCaml"; "Proof"]%string
  = ["coq"; "ocaml"; "proof"]%string.
Proof. reflexivity. Qed.

Lemma processTags_spec_witness :
  In "ocaml"%string
     (processTags asciiToLowerCase asciiTrim
        [" Coq "; "coq"; "  "; "OCaml"]%string)
  /\ normalized asciiToLowerCase
       (processTags asciiToLowerCase asciiTrim
          [" Coq "; "coq"; "  "; "OCaml"]%string).
Proof.
  destruct (processTags_spec asciiToLowerCase asciiTrim
              [" Coq "; "coq"; "  "; "OCaml"]%string)
    as (_ & _ & _ & Hall & Hnorm).
  split.
  - apply (Hall eq_refl "OCaml"%string).
    + simpl. tauto.
    + discriminate.
  - apply Hnorm. exact asciiTrim_lowered.
Defined.

(** ** Likes and the ranking *)

(** X24: for a user without like documents the liked tags are empty and
    the tag-match term vanishes: every candidate is scored by recency and
    popularity alone. *)
Theorem cold_start_scores (toLowerCase : string -> string) (db : DB)
    (user : ObjectId) (now : Z) :
  (forall l, In l (db_likes db) -> Like.userId l <> user) ->
  getUserLikedTags toLowerCase db user = []
  /\ forall sp, In sp (postsWithScores toLowerCase db user now) ->
       rankingScore sp
       = (calculateRecencyScore (Post.hoursSinceCreation now (sp_post sp))
          + calculatePopularityScore (Post.likes (sp_post sp))
              (getMaxLikes (db_posts db)))%R.
Proof.
  intros Hnone.
  assert (Hempty : getUserLikedTags toLowerCase db user = []).
  { destruct (getUserLikedTags toLowerCase db user) as [| t rest] eqn:E;
      [reflexivity |].
    assert (Hin : In t (getUserLikedTags toLowerCase db user))
      by (rewrite E; now left).
    apply (proj2 (getUserLikedTags_facts toLowerCase db user)) in Hin.
    destruct Hin as (like & _ & _ & Hl & Hu & _).
    now apply Hnone in Hl. }
  split; [exact Hempty |].
  intros sp Hsp. apply postsWithScores_score in Hsp.
  destruct Hsp as [_ ->]. rewrite Hempty.
  unfold calculateRankingScore, calculateTagScore. simpl. lra.
Qed.

Lemma cold_start_scores_witness :
  getUserLikedTags asciiToLowerCase taggedDB 9%nat = [].
Proof.
  apply (proj1 (cold_start_scores asciiToLowerCase taggedDB 9%nat 0
                  ltac:(intros l [<- | []]; discriminate))).
Defined.

(** X25: a like teaches the ranking the tags of the liked post.  After
    a successful like, the lower-case form of every tag of that post is
    among the user's liked tags. *)
Theorem like_teaches_tags (toLowerCase : string -> string) (db db' : DB)
    (user postId : ObjectId) (status : nat) (body : LikeBody)
    (post : Post.t) (tag : string) :
  likePost db user postId = (db', Json status body) ->
  findById (db_posts db) postId = Some post ->
  In tag (Post.tags post) ->
  In (toLowerCase tag) (getUserLikedTags toLowerCase db' user).
Proof.
  intros Hlike Hfind Htag. apply likePost_success in Hlike.
  destruct Hlike as (post' & Hfind' & _ & _ & -> & _).
  rewrite Hfind in Hfind'. inversion Hfind'; subst post'; clear Hfind'.
  apply (proj2 (getUserLikedTags_facts toLowerCase _ user)).
  exists (Like.mk user postId), (Post.incrementLikes post), tag.
  cbn [db_likes db_posts Like.userId Like.postId].
  split; [apply in_or_app; right; now left |].
  split; [reflexivity |].
  split; [| split; [exact Htag | reflexivity]].
  destruct (incrementLikes_likes post) as [Hid _].
  now apply findById_save with post.
Qed.

Lemma like_teaches_tags_witness :
  In (asciiToLowerCase "ocaml")
     (getUserLikedTags asciiToLowerCase
        (fst (likePost taggedDB 9%nat 2%nat)) 9%nat).
Proof.
  apply (like_teaches_tags asciiToLowerCase taggedDB
           (fst (likePost taggedDB 9%nat 2%nat)) 9%nat 2%nat 200%nat
           (mkLikeBody "Post liked successfully" 2)
           (Post.mk 2%nat 7%nat ["ocaml"]%string 0 0 0 0 true 20 0%Q)
           "ocaml").
  - reflexivity.
  - reflexivity.
  - now left.
Defined.

(** ** Engagement and age *)

Lemma Qdiv_le_numerator (x x' y : Q) :
  (0 < y -> x <= x' -> x / y <= x' / y)%Q.
Proof.
  intros Hy Hx. apply Qle_shift_div_l; [assumption |].
  unfold Qdiv. rewrite <- Qmult_assoc, (Qmult_comm (/ y)).
  rewrite Qmult_inv_r by lra. lra.
Qed.

Lemma Qdiv_le_denominator (x y y' : Q) :
  (0 <= x -> 0 < y -> y <= y' -> x / y' <= x / y)%Q.
Proof.
  intros Hx Hy Hy'. apply Qle_shift_div_l; [assumption |].
  unfold Qdiv. rewrite <- Qmult_assoc, (Qmult_comm (/ y')).
  rewrite Qmult_assoc. apply Qle_shift_div_r; [lra |]. nra.
Qed.

(** X26: for a post whose counters are not negative, the engagement
    saved with a like is current (it is the formula of its new counters)
    and not lower than the formula gave before; the engagement saved
    with an unlike or a view is not higher than before, and never
    negative. *)
Theorem engagement_moves_with_counters (p : Post.t) :
  0 <= Post.likes p -> 0 <= Post.comments p -> 0 <= Post.shares p ->
  0 <= Post.views p ->
  Post.engagement (Post.incrementLikes p)
  = engagementOf (Post.incrementLikes p)
  /\ (engagementOf p <= Post.engagement (Post.incrementLikes p))%Q
  /\ (0 <= Post.engagement (Post.decrementLikes p) <= engagementOf p)%Q
  /\ (0 <= Post.engagement (Post.incrementViews p) <= engagementOf p)%Q.
Proof.
  intros Hl Hc Hs Hv.
  assert (Hden : (0 < inject_Z (Post.views p + 1))%Q)
    by (change 0%Q with (inject_Z 0); rewrite <- Zlt_Qlt; lia).
  assert (Hnn : forall n d : Z, 0 <= n -> 0 <= d ->
                  (0 <= inject_Z n / inject_Z (d + 1))%Q).
  { intros n d Hn Hd. apply Qle_shift_div_l.
    - change 0%Q with (inject_Z 0). rewrite <- Zlt_Qlt. lia.
    - rewrite Qmult_0_l. change 0%Q with (inject_Z 0).
      now rewrite <- Zle_Qle. }
  split; [reflexivity |].
  split.
  { unfold engagementOf. cbn.
    apply Qdiv_le_numerator; [exact Hden |]. rewrite <- Zle_Qle. lia. }
  split.
  { unfold Post.decrementLikes, engagementOf.
    destruct (Post.likes p >? 0) eqn:E; cbn.
    - split; [apply Hnn; lia |].
      apply Qdiv_le_numerator; [exact Hden |]. rewrite <- Zle_Qle. lia.
    - split; [apply Hnn; lia | apply Qle_refl]. }
  unfold engagementOf. cbn. split; [apply Hnn; lia |].
  apply Qdiv_le_denominator.
  - change 0%Q with (inject_Z 0). rewrite <- Zle_Qle. lia.
  - exact Hden.
  - rewrite <- Zle_Qle. lia.
Qed.

Lemma engagement_moves_with_counters_witness :
  (engagementOf (samplePost 3 100 30)
   <= Post.engagement (Post.incrementLikes (samplePost 3 100 30)))%Q.
Proof.
  apply (proj1 (proj2
    (engagement_moves_with_counters (samplePost 3 100 30)
       ltac:(simpl; lia) ltac:(simpl; lia) ltac:(simpl; lia)
       ltac:(simpl; lia)))).
Defined.

(** X27: the age in days is the age in hours divided by 24 and rounded
    down; neither is negative for a post created no later than the
    current time. *)
Theorem ageInDays_from_hours (now : Z) (p : Post.t) :
  Post.ageInDays now p = Post.hoursSinceCreation now p / 24
  /\ (Post.createdAt p <= now ->
      0 <= Post.ageInDays now p <= Post.hoursSinceCreation now p).
Proof.
  unfold Post.ageInDays, Post.hoursSinceCreation.
  assert (Heq : (now - Post.createdAt p) / (1000 * 60 * 60 * 24)
                = (now - Post.createdAt p) / (1000 * 60 * 60) / 24).
  { rewrite Z.div_div by lia. reflexivity. }
  split; [exact Heq |].
  intros H. rewrite Heq.
  assert (Hh : 0 <= (now - Post.createdAt p) / (1000 * 60 * 60))
    by (apply Z.div_pos; lia).
  split; [apply Z.div_pos; lia |].
  apply Z.div_le_upper_bound; lia.
Qed.

Lemma ageInDays_from_hours_witness :
  0 <= Post.ageInDays 172800000 (samplePost 1 0 10)
  <= Post.hoursSinceCreation 172800000 (samplePost 1 0 10).
Proof.
  apply (proj2 (ageInDays_from_hours 172800000 (samplePost 1 0 10))).
  simpl. lia.
Defined.
